(** * Corynth subprocess plugins: the RPC protocol of the example plugins

    A shallow embedding of the three Python plugins of the repository

      - [examples/plugins/file-plugin.py]   (module [FilePlugin])
      - [examples/plugins/http-plugin.py]   (module [HttpPlugin])
      - [test-calc.py]                      (module [CalculatorPlugin])

    Each plugin is a process: it receives the action name as its first
    argument, reads a JSON document from standard input, and prints one JSON
    document on standard output.  The Python code is effectful (standard
    streams, the file system, raised exceptions), so it is embedded in a
    state-and-exception monad [M] over the process state [Process].

    What Python and the operating system provide and the repository only
    calls ([json.loads], [json.dumps], [requests.get], [requests.post],
    [eval], [round]) is collected in the class [Library]; the plugins are
    written against that interface.  [sys.stdin], [print], [sys.exit] and
    what [open] and [os.makedirs] meet (text files, directories, devices,
    permissions, the descriptors of the process) are modelled concretely. *)

From Stdlib Require Import ZArith Ascii String List Bool Lia.
From stdpp Require Import base gmap strings list.
Import ListNotations.
Local Open Scope string_scope.
Set Warnings "-register-all".

(** ** Python values *)

(** An IEEE-754 double, as the values [json.loads] and [eval] produce. *)
Inductive pyfloat : Type :=
  | FZero (negative : bool)
  | FInfinity (negative : bool)
  | FNaN
  | FFinite (negative : bool) (mantissa : positive) (exponent : Z).

(** The Python objects a JSON document decodes to. A [dict] keeps its
    insertion order, so it is an association list; lookup takes the first
    binding of a key. *)
Inductive pyval : Type :=
  | VNone
  | VBool (b : bool)
  | VInt (n : Z)
  | VFloat (f : pyfloat)
  | VStr (s : string)
  | VList (items : list pyval)
  | VDict (entries : list (string * pyval)).

(** [bool(v)], the test behind [if not v]. *)
Definition truthy (v : pyval) : bool :=
  match v with
  | VNone => false
  | VBool b => b
  | VInt n => negb (n =? 0)%Z
  | VFloat (FZero _) => false
  | VFloat _ => true
  | VStr s => negb (s =? "")
  | VList l => match l with [] => false | _ => true end
  | VDict d => match d with [] => false | _ => true end
  end.

(** [type(v).__name__]. *)
Definition type_name (v : pyval) : string :=
  match v with
  | VNone => "NoneType"
  | VBool _ => "bool"
  | VInt _ => "int"
  | VFloat _ => "float"
  | VStr _ => "str"
  | VList _ => "list"
  | VDict _ => "dict"
  end.

Fixpoint dict_lookup (k : string) (d : list (string * pyval)) : option pyval :=
  match d with
  | [] => None
  | (k', v) :: rest => if k' =? k then Some v else dict_lookup k rest
  end.

(** ** Exceptions *)

(** The exception classes the plugins can meet. Every one of them derives
    from [Exception]; [LibraryError] stands for any other subclass of
    [Exception] raised inside a library call (for instance
    [ZeroDivisionError] from [eval] or [ConnectionError] from [requests]). *)
Inductive exc_class : Type :=
  | Exception
  | ValueError
  | JSONDecodeError
  | TypeError
  | AttributeError
  | OSError
  | FileNotFoundError
  | IsADirectoryError
  | NotADirectoryError
  | FileExistsError
  | PermissionError
  | UnsupportedOperation
  | LibraryError (name : string).

(** An exception instance: its class and [str(e)]. *)
Record exn : Type := mkExn { exn_class : exc_class; exn_str : string }.

Definition bases (c : exc_class) : list exc_class :=
  match c with
  | Exception => []
  | ValueError | TypeError | AttributeError | OSError | LibraryError _ => [Exception]
  | JSONDecodeError => [ValueError]
  | FileNotFoundError | IsADirectoryError | NotADirectoryError | FileExistsError
  | PermissionError => [OSError]
  | UnsupportedOperation => [OSError; ValueError]
  end.

Definition exc_class_eqb (c d : exc_class) : bool :=
  match c, d with
  | Exception, Exception | ValueError, ValueError
  | JSONDecodeError, JSONDecodeError | TypeError, TypeError
  | AttributeError, AttributeError | OSError, OSError
  | FileNotFoundError, FileNotFoundError
  | IsADirectoryError, IsADirectoryError
  | NotADirectoryError, NotADirectoryError
  | FileExistsError, FileExistsError
  | PermissionError, PermissionError
  | UnsupportedOperation, UnsupportedOperation => true
  | LibraryError n, LibraryError m => n =? m
  | _, _ => false
  end.

(** [issubclass(c, d)]; the hierarchy above has depth three. *)
Fixpoint issubclass_upto (depth : nat) (c d : exc_class) : bool :=
  exc_class_eqb c d ||
  match depth with
  | O => false
  | S depth' => existsb (fun b => issubclass_upto depth' b d) (bases c)
  end.

Definition issubclass : exc_class -> exc_class -> bool := issubclass_upto 3.

Definition isinstance (e : exn) (c : exc_class) : bool :=
  issubclass (exn_class e) c.

(** What a [raise] carries up the stack: an instance of [Exception], or the
    [SystemExit] of [sys.exit], which [except Exception] does not catch. *)
Inductive raised : Type :=
  | Exc (e : exn)
  | SystemExit (code : Z).

(** The outcome of a library call: a value or a raised [Exception]. *)
Inductive result (A : Type) : Type :=
  | Ok (a : A)
  | Raise (e : exn).
Arguments Ok {A} a.
Arguments Raise {A} e.

(** ** The process state *)

(** [sys.stdin]: what the host wrote ([stdin_buffer]), the part not consumed
    yet ([stdin_unread]), and whether the descriptor can seek (a regular
    file can, a pipe or a terminal cannot). *)
Record Stdin : Type := mkStdin {
  stdin_buffer : string;
  stdin_unread : string;
  stdin_seekable : bool
}.

(** What a path or a descriptor can name besides a regular file and a
    directory: a character device, a FIFO, a terminal, one of the standard
    streams of the process. Reading one gives what the device has to give
    and may take from standard input ([/dev/stdin] on a pipe); opening one
    for writing may be refused; what is written to one reaches standard
    output ([Ok true], as for [/dev/stdout]), goes elsewhere ([Ok false], as
    for [/dev/null]) or fails. *)
Record device : Type := mkDevice {
  dev_read : Stdin -> result string * Stdin;
  dev_open_write : option exn;
  dev_write : result bool
}.

(** The world outside the interpreter. Regular files ([files], with the
    characters stored in them), directories ([dirs]) and devices
    ([devices]) are kept by their normalized path, [a/b] for a path
    relative to the current directory and [/a/b] for an absolute one; the
    current directory [.], its ancestors [..], [../..] and the root [/]
    exist without being listed. [descriptors] are the descriptors the host
    has handed down besides the three standard ones, or in place of them.
    The three sets hold the files the process may not read, the files it
    may not write and the directories it may not create entries in, and the
    directories it may not search. The files are text files in the
    encoding of the locale; there are no symbolic links, and the file
    systems can be written to and have room. *)
Record World : Type := World_of {
  files : gmap string string;
  dirs : gset string;
  devices : gmap string device;
  descriptors : gmap Z device;
  unreadable : gset string;
  unwritable : gset string;
  unsearchable : gset string
}.

(** A world of regular files and directories the process has every right
    on. *)
Definition mkWorld (f : gmap string string) (d : gset string) : World :=
  World_of f d ∅ ∅ ∅ ∅ ∅.

Definition with_files (f : gmap string string) (w : World) : World :=
  World_of f (dirs w) (devices w) (descriptors w)
           (unreadable w) (unwritable w) (unsearchable w).

Definition with_dirs (d : gset string) (w : World) : World :=
  World_of (files w) d (devices w) (descriptors w)
           (unreadable w) (unwritable w) (unsearchable w).

(** The state of the process: [sys.stdin]; the lines [print] has put into
    the buffer of [sys.stdout], which the interpreter flushes when it exits;
    the world; what has been written straight to descriptor 1, past that
    buffer; and the descriptors the program has closed. *)
Record Process : Type := Process_of {
  proc_stdin : Stdin;
  proc_stdout : list string;   (* the lines printed so far, oldest first *)
  proc_world : World;
  proc_emitted : list string;
  proc_closed : list Z
}.

(** A process that has written nothing past the buffer and closed
    nothing. *)
Definition mkProcess (i : Stdin) (printed : list string) (w : World) : Process :=
  Process_of i printed w [] [].

(** The same process with another standard input. *)
Definition with_stdin (i : Stdin) (s : Process) : Process :=
  Process_of i (proc_stdout s) (proc_world s) (proc_emitted s) (proc_closed s).

(** The same process in another world. *)
Definition with_world (w : World) (s : Process) : Process :=
  Process_of (proc_stdin s) (proc_stdout s) w (proc_emitted s) (proc_closed s).

(** ** The monad of Python statements *)

Definition M (A : Type) : Type := Process -> (A + raised) * Process.

Definition ret {A} (a : A) : M A := fun s => (inl a, s).

Definition bind {A B} (m : M A) (k : A -> M B) : M B :=
  fun s => match m s with
           | (inl a, s') => k a s'
           | (inr r, s') => (inr r, s')
           end.

Declare Scope py_scope.
Delimit Scope py_scope with py.
Notation "x <- m ;; k" := (bind m (fun x => k))
  (at level 100, m at next level, right associativity) : py_scope.
Notation "m ;;; k" := (bind m (fun _ => k))
  (at level 100, right associativity) : py_scope.
Local Open Scope py_scope.

Definition raise {A} (c : exc_class) (msg : string) : M A :=
  fun s => (inr (Exc (mkExn c msg)), s).

Definition lift {A} (r : result A) : M A :=
  fun s => match r with
           | Ok a => (inl a, s)
           | Raise e => (inr (Exc e), s)
           end.

(** [try: body / except cls as e: handler e]. *)
Definition try_except {A} (body : M A) (cls : exc_class) (handler : exn -> M A) : M A :=
  fun s => match body s with
           | (inr (Exc e), s') =>
               if isinstance e cls then handler e s' else (inr (Exc e), s')
           | other => other
           end.

(** [sys.exit(code)]. *)
Definition sys_exit {A} (code : Z) : M A := fun s => (inr (SystemExit code), s).

(** [print(line)]: the line goes into the buffer of [sys.stdout]. *)
Definition print (line : string) : M unit :=
  fun s => (inl tt,
            Process_of (proc_stdin s) (proc_stdout s ++ [line]) (proc_world s)
                       (proc_emitted s) (proc_closed s)).

(** [sys.stdin.read()]: everything up to end of file; a second call returns
    the empty string. *)
Definition stdin_read : M string :=
  fun s =>
    let i := proc_stdin s in
    (inl (stdin_unread i),
     with_stdin (mkStdin (stdin_buffer i) "" (stdin_seekable i)) s).

(** [sys.stdin.seek(0)]. *)
Definition stdin_seek0 : M unit :=
  fun s =>
    let i := proc_stdin s in
    if stdin_seekable i then
      (inl tt, with_stdin (mkStdin (stdin_buffer i) (stdin_buffer i) true) s)
    else
      (inr (Exc (mkExn UnsupportedOperation "underlying stream is not seekable")), s).

Definition get_world : M World := fun s => (inl (proc_world s), s).

Definition put_world (w : World) : M unit := fun s => (inl tt, with_world w s).

(** What is written straight to descriptor 1. *)
Definition emit (text : string) : M unit :=
  fun s => (inl tt,
            Process_of (proc_stdin s) (proc_stdout s) (proc_world s)
                       (proc_emitted s ++ [text]) (proc_closed s)).

(** Closing descriptor [n]. *)
Definition close_fd (n : Z) : M unit :=
  fun s => (inl tt,
            Process_of (proc_stdin s) (proc_stdout s) (proc_world s)
                       (proc_emitted s) (n :: proc_closed s)).

(** [try: body / finally: cleanup], for a cleanup that cannot fail. *)
Definition finally {A} (body : M A) (cleanup : M unit) : M A :=
  fun s => match body s with
           | (r, s') => (r, snd (cleanup s'))
           end.

(** Whether descriptor 1 is still open. *)
Definition stdout_open (s : Process) : bool :=
  negb (existsb (Z.eqb 1) (proc_closed s)).

(** What the host receives on standard output once the process has
    terminated: what went to descriptor 1 directly, then the printed lines,
    which the interpreter flushes on exit if the descriptor is still
    open. *)
Definition delivered (s : Process) : list string :=
  proc_emitted s ++ (if stdout_open s then proc_stdout s else []).

(** The exit status: the interpreter exits with 120 when it cannot flush
    what has been printed. *)
Definition exit_status (code : Z) (s : Process) : Z :=
  if stdout_open s then code
  else match proc_stdout s with
       | [] => code
       | _ => 120%Z
       end.

(** The process as the host sees it when it has terminated: what it
    received on standard output, the exit code, and the world left behind.
    An exception nobody caught makes the interpreter print a traceback on
    standard error and exit with code 1. Standard output is taken to be a
    pipe or a file, so that [sys.stdout] is block-buffered. *)
Record Outcome : Type := mkOutcome {
  out_stdout : list string;
  out_code : Z;
  out_uncaught : option exn;
  out_world : World
}.

Definition run_process (main : list string -> M unit)
    (argv : list string) (stdin : string) (seekable : bool) (w : World) : Outcome :=
  match main argv (mkProcess (mkStdin stdin stdin seekable) [] w) with
  | (inl tt, s) => mkOutcome (delivered s) (exit_status 0 s) None (proc_world s)
  | (inr (SystemExit code), s) =>
      mkOutcome (delivered s) (exit_status code s) None (proc_world s)
  | (inr (Exc e), s) => mkOutcome (delivered s) (exit_status 1 s) (Some e) (proc_world s)
  end.

(** ** Strings *)

Definition LF : ascii := "010"%char.
Definition CR : ascii := "013"%char.

(** [str.isspace] on one character (code points below 256). *)
Definition py_isspace (c : ascii) : bool :=
  let n := nat_of_ascii c in
  ((9 <=? n) && (n <=? 13) || (28 <=? n) && (n <=? 32) || (n =? 133) || (n =? 160))%nat.

Fixpoint lstrip (s : string) : string :=
  match s with
  | EmptyString => EmptyString
  | String c rest => if py_isspace c then lstrip rest else s
  end.

Fixpoint rstrip (s : string) : string :=
  match s with
  | EmptyString => EmptyString
  | String c rest =>
      let t := rstrip rest in
      if (t =? "") && py_isspace c then EmptyString else String c t
  end.

(** [s.strip()]. *)
Definition strip (s : string) : string := rstrip (lstrip s).

(** ** [dict.get] *)

(** [obj.get(key, default)]: only a [dict] has the method. *)
Definition py_get (obj : pyval) (key : string) (default : pyval) : M pyval :=
  match obj with
  | VDict d => ret (match dict_lookup key d with Some v => v | None => default end)
  | _ => raise AttributeError ("'" ++ type_name obj ++ "' object has no attribute 'get'")
  end.


(** ** Text files *)

(** Reading a file opened with [open(path, 'r')]: universal newlines, every
    [\r\n] and every lone [\r] of the file arrives as [\n]. *)
Fixpoint universal_newlines (s : string) : string :=
  match s with
  | EmptyString => EmptyString
  | String c rest =>
      if Ascii.eqb c CR then
        String LF
          match rest with
          | String c' rest' =>
              if Ascii.eqb c' LF then universal_newlines rest' else universal_newlines rest
          | EmptyString => EmptyString
          end
      else String c (universal_newlines rest)
  end.

(** [os.linesep] of a POSIX system. *)
Definition os_linesep : string := String LF EmptyString.

(** Writing to a file opened with [open(path, 'w')]: every [\n] is written
    as [os.linesep]. *)
Fixpoint write_newlines (s : string) : string :=
  match s with
  | EmptyString => EmptyString
  | String c rest =>
      if Ascii.eqb c LF then os_linesep ++ write_newlines rest
      else String c (write_newlines rest)
  end.

(** ** Paths *)

Definition is_sep (c : ascii) : bool := Ascii.eqb c "/"%char.

Fixpoint all_seps (s : string) : bool :=
  match s with
  | EmptyString => true
  | String c rest => is_sep c && all_seps rest
  end.

(** Whether a path has a [/] in it. *)
Fixpoint has_sep (p : string) : bool :=
  match p with
  | EmptyString => false
  | String c rest => is_sep c || has_sep rest
  end.

(** Whether a path has a null character in it. *)
Fixpoint has_nul (p : string) : bool :=
  match p with
  | EmptyString => false
  | String c rest => Ascii.eqb c "000"%char || has_nul rest
  end.

(** The length of a name in bytes, as the system counts it: the file system
    encoding is UTF-8, which takes one byte for a code point below 128 and
    two from there to 255. *)
Fixpoint utf8_length (p : string) : nat :=
  match p with
  | EmptyString => 0
  | String c rest => (if (nat_of_ascii c <? 128)%nat then 1 else 2) + utf8_length rest
  end.

(** [p[:p.rfind('/') + 1]]. *)
Fixpoint upto_last_sep (p : string) : string :=
  match p with
  | EmptyString => EmptyString
  | String c rest =>
      let h := upto_last_sep rest in
      if negb (h =? "") || is_sep c then String c h else EmptyString
  end.

(** [p[p.rfind('/') + 1:]]. *)
Fixpoint after_last_sep (p : string) : string :=
  match p with
  | EmptyString => EmptyString
  | String c rest => if has_sep p then after_last_sep rest else p
  end.

(** [s.rstrip('/')]. *)
Fixpoint rstrip_sep (s : string) : string :=
  match s with
  | EmptyString => EmptyString
  | String c rest =>
      let t := rstrip_sep rest in
      if (t =? "") && is_sep c then EmptyString else String c t
  end.

(** [posixpath.dirname]. *)
Definition posix_dirname (p : string) : string :=
  let head := upto_last_sep p in
  if negb (head =? "") && negb (all_seps head) then rstrip_sep head else head.

(** [posixpath.split]. *)
Definition posix_split (p : string) : string * string :=
  (posix_dirname p, after_last_sep p).

(** [p.split('/')]. *)
Fixpoint split_sep (p : string) : list string :=
  match p with
  | EmptyString => [EmptyString]
  | String c rest =>
      if is_sep c then EmptyString :: split_sep rest
      else match split_sep rest with
           | name :: names => String c name :: names
           | [] => [String c EmptyString]
           end
  end.

(** [repr] of a string, as Python puts a file name into the message of an
    [OSError] (code points below 256). *)
Definition BACKSLASH : ascii := "092"%char.
Definition SQUOTE : ascii := "039"%char.
Definition DQUOTE : ascii := "034"%char.
Definition TAB : ascii := "009"%char.

Definition hex_digit (n : nat) : ascii :=
  nth n (list_ascii_of_string "0123456789abcdef") "0"%char.

Definition hex2 (c : ascii) : string :=
  let n := nat_of_ascii c in
  String (hex_digit (n / 16)) (String (hex_digit (n mod 16)) EmptyString).

Definition printable (c : ascii) : bool :=
  let n := nat_of_ascii c in
  ((32 <=? n) && (n <=? 126) || (161 <=? n) && negb (n =? 173))%nat.

Fixpoint contains (c : ascii) (s : string) : bool :=
  match s with
  | EmptyString => false
  | String c' rest => Ascii.eqb c' c || contains c rest
  end.

Fixpoint repr_body (q : ascii) (s : string) : string :=
  match s with
  | EmptyString => EmptyString
  | String c rest =>
      (if Ascii.eqb c BACKSLASH then String BACKSLASH (String BACKSLASH EmptyString)
       else if Ascii.eqb c q then String BACKSLASH (String q EmptyString)
       else if Ascii.eqb c LF then String BACKSLASH "n"
       else if Ascii.eqb c CR then String BACKSLASH "r"
       else if Ascii.eqb c TAB then String BACKSLASH "t"
       else if printable c then String c EmptyString
       else String BACKSLASH ("x" ++ hex2 c))
      ++ repr_body q rest
  end.

Definition py_repr (s : string) : string :=
  let q := if contains SQUOTE s && negb (contains DQUOTE s) then DQUOTE else SQUOTE in
  String q (repr_body q s ++ String q EmptyString).

(** ** The file system *)

(** A place in the tree of directories: under the root or under the current
    directory, with the names that lead to it, the innermost first. Above
    the current directory the names are [..]. *)
Record location : Type := mkLocation {
  loc_absolute : bool;
  loc_names : list string
}.

Definition here : location := mkLocation false [].
Definition root : location := mkLocation true [].

Fixpoint join_names (names : list string) : string :=
  match names with
  | [] => EmptyString
  | [name] => name
  | name :: rest => name ++ "/" ++ join_names rest
  end.

(** The normalized path of a location, under which the world keeps it. *)
Definition key_of (l : location) : string :=
  let inner := join_names (rev (loc_names l)) in
  if loc_absolute l then "/" ++ inner
  else if inner =? "" then "." else inner.

Definition child_of (l : location) (name : string) : location :=
  mkLocation (loc_absolute l) (name :: loc_names l).

Definition parent_of (l : location) : location :=
  match loc_names l with
  | [] => if loc_absolute l then l else mkLocation false [".."]
  | name :: above =>
      if name =? ".." then mkLocation (loc_absolute l) (".." :: name :: above)
      else mkLocation (loc_absolute l) above
  end.

(** The root, the current directory and its ancestors are there; any other
    directory is one the world lists. *)
Definition is_directory (w : World) (l : location) : bool :=
  forallb (String.eqb "..") (loc_names l) || bool_decide (key_of l ∈ dirs w).

(** What the world has under a normalized path. *)
Inductive entry : Type :=
  | IsDirectory
  | IsDevice (d : device)
  | IsFile (stored : string)
  | Nothing.

Definition entry_at (w : World) (key : string) : entry :=
  if bool_decide (key ∈ dirs w) then IsDirectory
  else match devices w !! key with
       | Some d => IsDevice d
       | None =>
           match files w !! key with
           | Some stored => IsFile stored
           | None => Nothing
           end
       end.

Definition occupied (w : World) (key : string) : bool :=
  match entry_at w key with
  | Nothing => false
  | _ => true
  end.

Inductive errno : Type := ENOENT | ENOTDIR | EACCES | EISDIR | EEXIST | ENAMETOOLONG.

(** The [OSError] Python raises for an error of the system on a path. *)
Definition os_error (e : errno) (path : string) : exn :=
  match e with
  | ENOENT =>
      mkExn FileNotFoundError ("[Errno 2] No such file or directory: " ++ py_repr path)
  | ENOTDIR =>
      mkExn NotADirectoryError ("[Errno 20] Not a directory: " ++ py_repr path)
  | EACCES =>
      mkExn PermissionError ("[Errno 13] Permission denied: " ++ py_repr path)
  | EISDIR =>
      mkExn IsADirectoryError ("[Errno 21] Is a directory: " ++ py_repr path)
  | EEXIST =>
      mkExn FileExistsError ("[Errno 17] File exists: " ++ py_repr path)
  | ENAMETOOLONG =>
      mkExn OSError ("[Errno 36] File name too long: " ++ py_repr path)
  end.

(** Where a path leads: to a directory ([.], [..], [/], a path that ends in
    [/]), to the entry of a name in a directory that exists, whatever is
    under that name, or nowhere. *)
Inductive resolution : Type :=
  | AtDirectory (l : location)
  | AtEntry (parent : location) (name : string)
  | NoWay (e : errno).

(** The longest name and the longest path the system takes, in bytes. *)
Definition NAME_MAX : nat := 255.
Definition PATH_MAX : nat := 4096.

(** The walk of the system along the names of a path, from the directory
    [cur]: every directory on the way is searched, no name is longer than
    [NAME_MAX], and every name but the last has to be a directory. *)
Fixpoint walk (w : World) (cur : location) (names : list string) : resolution :=
  match names with
  | [] => AtDirectory cur
  | name :: rest =>
      if bool_decide (key_of cur ∈ unsearchable w) then NoWay EACCES
      else if (name =? "") || (name =? ".") then walk w cur rest
      else if name =? ".." then walk w (parent_of cur) rest
      else if (NAME_MAX <? utf8_length name)%nat then NoWay ENAMETOOLONG
      else
        match rest with
        | [] => AtEntry cur name
        | _ =>
            let next := child_of cur name in
            if is_directory w next then walk w next rest
            else if occupied w (key_of next) then NoWay ENOTDIR
            else NoWay ENOENT
        end
  end.

Definition starts_at (p : string) : location :=
  match p with
  | String c _ => if is_sep c then root else here
  | EmptyString => here
  end.

Definition locate (w : World) (p : string) : resolution :=
  if p =? "" then NoWay ENOENT
  else if (PATH_MAX <=? utf8_length p)%nat then NoWay ENAMETOOLONG
  else walk w (starts_at p) (split_sep p).

(** [os.path.exists(p)] and [os.path.isdir(p)]; a name [os.stat] rejects
    counts as absent. *)
Definition path_exists (w : World) (p : string) : bool :=
  if has_nul p then false
  else match locate w p with
       | AtDirectory _ => true
       | AtEntry parent name => occupied w (key_of (child_of parent name))
       | NoWay _ => false
       end.

Definition path_isdir (w : World) (p : string) : bool :=
  if has_nul p then false
  else match locate w p with
       | AtDirectory _ => true
       | AtEntry parent name =>
           bool_decide (key_of (child_of parent name) ∈ dirs w)
       | NoWay _ => false
       end.

(** [os.mkdir(p)]; the system lets the name of the new directory end in
    [/]. *)
Definition mkdir (w : World) (p : string) : result World :=
  if has_nul p then Raise (mkExn ValueError "embedded null byte")
  else
    let q := if rstrip_sep p =? "" then p else rstrip_sep p in
    match locate w q with
    | NoWay e => Raise (os_error e p)
    | AtDirectory _ => Raise (os_error EEXIST p)
    | AtEntry parent name =>
        let key := key_of (child_of parent name) in
        if occupied w key then Raise (os_error EEXIST p)
        else if bool_decide (key_of parent ∈ unwritable w) then Raise (os_error EACCES p)
        else Ok (with_dirs (dirs w ∪ {[key]}) w)
    end.

(** [os.makedirs(name, exist_ok=True)], as [os.py] has it: the missing
    parents first, a [FileExistsError] on the way ignored, then the
    directory itself, where an [OSError] is let through unless the
    directory is there. [fuel] bounds the length of the name. *)
Fixpoint makedirs (fuel : nat) (name : string) (w : World) : result World :=
  let '(head, tail) := posix_split name in
  let '(head, tail) := if tail =? "" then posix_split head else (head, tail) in
  let parents : result (World * bool) :=
    if negb (head =? "") && negb (tail =? "") && negb (path_exists w head) then
      match fuel with
      | O => Ok (w, false)
      | S fuel' =>
          match makedirs fuel' head w with
          | Ok w' => Ok (w', tail =? ".")
          | Raise e =>
              if isinstance e FileExistsError then Ok (w, tail =? ".") else Raise e
          end
      end
    else Ok (w, false) in
  match parents with
  | Raise e => Raise e
  | Ok (w1, true) => Ok w1
  | Ok (w1, false) =>
      match mkdir w1 name with
      | Ok w2 => Ok w2
      | Raise e =>
          if isinstance e OSError && path_isdir w1 name then Ok w1 else Raise e
      end
  end.

Definition not_a_str (what : string) (v : pyval) : string :=
  what ++ type_name v.

(** [os.path.dirname(path)]. *)
Definition os_path_dirname (path : pyval) : M string :=
  match path with
  | VStr p => ret (posix_dirname p)
  | _ => raise TypeError (not_a_str "expected str, bytes or os.PathLike object, not " path)
  end.

(** [os.makedirs(d, exist_ok=True)]. *)
Definition os_makedirs (d : string) : M unit :=
  w <- get_world ;;
  match makedirs (S (String.length d)) d w with
  | Ok w' => put_world w'
  | Raise e => lift (Raise e)
  end.

(** ** Devices and descriptors *)

Definition bad_descriptor : exn := mkExn OSError "[Errno 9] Bad file descriptor".

(** The three standard descriptors of a process the host talks to through
    pipes: descriptor 0 gives what is left of standard input and cannot be
    written; descriptors 1 and 2 cannot be read, and what is written to
    descriptor 1 is standard output. *)
Definition stdin_pipe : device :=
  mkDevice (fun i => (Ok (stdin_unread i),
                      mkStdin (stdin_buffer i) "" (stdin_seekable i)))
           None (Raise bad_descriptor).

Definition stdout_pipe : device :=
  mkDevice (fun i => (Raise bad_descriptor, i)) None (Ok true).

Definition stderr_pipe : device :=
  mkDevice (fun i => (Raise bad_descriptor, i)) None (Ok false).

(** What descriptor [n] is, if it is open when the process starts. *)
Definition fd_device (w : World) (n : Z) : option device :=
  match descriptors w !! n with
  | Some d => Some d
  | None =>
      if (n =? 0)%Z then Some stdin_pipe
      else if (n =? 1)%Z then Some stdout_pipe
      else if (n =? 2)%Z then Some stderr_pipe
      else None
  end.

Definition raise_exn {A} (e : exn) : M A := fun s => (inr (Exc e), s).

(** [f.read()] on a device, in text mode. *)
Definition device_read (d : device) : M string :=
  fun s => match dev_read d (proc_stdin s) with
           | (Ok data, i) => (inl (universal_newlines data), with_stdin i s)
           | (Raise e, i) => (inr (Exc e), with_stdin i s)
           end.

(** What closing the file does with the text written to a device; nothing
    is sent when there is nothing to send. *)
Definition device_write (d : device) (text : string) : M unit :=
  if text =? "" then ret tt
  else match dev_write d with
       | Ok true => emit text
       | Ok false => ret tt
       | Raise e => raise_exn e
       end.

(** [f.write(content)]: the text that goes into the buffer of the file. *)
Definition written_text (content : pyval) : M string :=
  match content with
  | VStr text => ret (write_newlines text)
  | VNone => raise TypeError "write() argument must be str, not None"
  | _ => raise TypeError (not_a_str "write() argument must be str, not " content)
  end.

(** [with open(n, mode) as f: ...] for a number [n]: the file object takes
    over descriptor [n] of the process, and leaving the [with] block closes
    it, whatever happened in the block. *)
Definition with_descriptor {A} (n : Z) (use : device -> M A) : M A :=
  if ((n <? -2147483648) || (2147483647 <? n))%Z then
    raise (LibraryError "OverflowError") "Python int too large to convert to C int"
  else if (n <? 0)%Z then raise ValueError "negative file descriptor"
  else fun s =>
    if existsb (Z.eqb n) (proc_closed s) then (inr (Exc bad_descriptor), s)
    else match fd_device (proc_world s) n with
         | Some d => finally (use d) (close_fd n) s
         | None => (inr (Exc bad_descriptor), s)
         end.

(** [with open(path, 'r') as f: content = f.read()]. *)
Definition open_read (path : pyval) : M string :=
  match path with
  | VStr p =>
      if has_nul p then raise ValueError "embedded null byte"
      else
        w <- get_world ;;
        match locate w p with
        | NoWay e => raise_exn (os_error e p)
        | AtDirectory _ => raise_exn (os_error EISDIR p)
        | AtEntry parent name =>
            let key := key_of (child_of parent name) in
            match entry_at w key with
            | IsDirectory => raise_exn (os_error EISDIR p)
            | IsDevice d => device_read d
            | IsFile stored =>
                if bool_decide (key ∈ unreadable w) then raise_exn (os_error EACCES p)
                else ret (universal_newlines stored)
            | Nothing => raise_exn (os_error ENOENT p)
            end
        end
  | VInt n => with_descriptor n device_read
  | VBool b => with_descriptor (if b then 1 else 0)%Z device_read
  | VFloat _ => raise TypeError "integer argument expected, got float"
  | _ => raise TypeError (not_a_str "expected str, bytes or os.PathLike object, not " path)
  end.

(** Where [open(p, 'w')] looks: the system answers a name that ends in [/]
    and is not there with [EISDIR] when it is asked to create it. *)
Definition locate_to_create (w : World) (p : string) : resolution :=
  if negb (rstrip_sep p =? p)
     && match locate w (rstrip_sep p) with
        | AtEntry parent name => negb (occupied w (key_of (child_of parent name)))
        | _ => false
        end
  then NoWay EISDIR
  else locate w p.

(** [with open(path, 'w') as f: f.write(content)]. Opening creates or
    truncates a regular file before anything is written to it; the text
    reaches the file, or the device, when the file is closed. *)
Definition open_write (path : pyval) (content : pyval) : M unit :=
  match path with
  | VStr p =>
      if has_nul p then raise ValueError "embedded null byte"
      else
        w <- get_world ;;
        match locate_to_create w p with
        | NoWay e => raise_exn (os_error e p)
        | AtDirectory _ => raise_exn (os_error EISDIR p)
        | AtEntry parent name =>
            let key := key_of (child_of parent name) in
            match entry_at w key with
            | IsDirectory => raise_exn (os_error EISDIR p)
            | IsDevice d =>
                match dev_open_write d with
                | Some e => raise_exn e
                | None => text <- written_text content ;; device_write d text
                end
            | IsFile _ =>
                if bool_decide (key ∈ unwritable w) then raise_exn (os_error EACCES p)
                else
                  put_world (with_files (<[key := ""]> (files w)) w) ;;;
                  text <- written_text content ;;
                  put_world (with_files (<[key := text]> (files w)) w)
            | Nothing =>
                if bool_decide (key_of parent ∈ unwritable w)
                then raise_exn (os_error EACCES p)
                else
                  put_world (with_files (<[key := ""]> (files w)) w) ;;;
                  text <- written_text content ;;
                  put_world (with_files (<[key := text]> (files w)) w)
            end
        end
  | VInt n =>
      with_descriptor n (fun d => text <- written_text content ;; device_write d text)
  | VBool b =>
      with_descriptor (if b then 1 else 0)%Z
        (fun d => text <- written_text content ;; device_write d text)
  | VFloat _ => raise TypeError "integer argument expected, got float"
  | _ => raise TypeError (not_a_str "expected str, bytes or os.PathLike object, not " path)
  end.

(** ** The library interface *)

Record http_response : Type := mkResponse {
  status_code : Z;
  response_headers : list (string * string);
  response_text : string
}.

(** What [eval] can return for an expression. *)
Inductive eval_value : Type :=
  | EvalInt (n : Z)
  | EvalFloat (f : pyfloat)
  | EvalObject (type : string).   (* a tuple, a complex number, ... *)

(** The library calls are taken to come back: each returns a value or
    raises an [Exception]. *)
Class Library : Type := {
  (** [json.loads(s)]; a syntax error raises [JSONDecodeError]. *)
  json_loads : string -> result pyval;
  (** [json.dumps(v)]. *)
  json_dumps : pyval -> string;
  (** [requests.get(url, headers=headers, timeout=timeout)]. *)
  requests_get : pyval -> pyval -> pyval -> result http_response;
  (** [requests.post(url, data=body, headers=headers, timeout=timeout)]. *)
  requests_post : pyval -> pyval -> pyval -> pyval -> result http_response;
  (** [eval(expression, {"__builtins__": {}}, {})]. *)
  py_eval : pyval -> result eval_value;
  (** [round(float(x), precision)] for a number [x]. *)
  py_round_float : eval_value -> pyval -> result pyval
}.

(** The response of a plugin that reports a failure. *)
Definition error_response (message : string) : pyval :=
  VDict [("error", VStr message)].

Definition param_spec (type : string) (required : bool) (description : string) : pyval :=
  VDict [("type", VStr type); ("required", VBool required);
         ("description", VStr description)].

Definition param_spec_default (type : string) (required : bool) (default : pyval)
    (description : string) : pyval :=
  VDict [("type", VStr type); ("required", VBool required); ("default", default);
         ("description", VStr description)].

Definition output_spec (type : string) (description : string) : pyval :=
  VDict [("type", VStr type); ("description", VStr description)].

(** ** examples/plugins/file-plugin.py *)

Module FilePlugin.
Section Plugin.
Context `{Library}.

Definition metadata : pyval :=
  VDict [("name", VStr "file");
         ("version", VStr "1.0.0");
         ("description", VStr "File system operations (read, write, copy, move)");
         ("author", VStr "Corynth Team");
         ("tags", VList [VStr "file"; VStr "filesystem"; VStr "io"])].

Definition get_metadata : pyval := metadata.

Definition get_actions : pyval :=
  VDict [
    ("read", VDict [
       ("description", VStr "Read file contents");
       ("inputs", VDict [
          ("path", param_spec "string" true "File path to read")]);
       ("outputs", VDict [
          ("content", output_spec "string" "File contents")])]);
    ("write", VDict [
       ("description", VStr "Write content to file");
       ("inputs", VDict [
          ("path", param_spec "string" true "File path to write");
          ("content", param_spec "string" true "Content to write");
          ("create_dirs", param_spec_default "boolean" false (VBool false)
                            "Create parent directories if needed")]);
       ("outputs", VDict [
          ("success", output_spec "boolean" "Write operation success")])])].

Definition _handle_read (params : pyval) : M pyval :=
  path <- py_get params "path" VNone ;;
  if negb (truthy path) then
    raise ValueError "path parameter is required"
  else
    content <- open_read path ;;
    ret (VDict [("content", VStr content)]).

Definition _handle_write (params : pyval) : M pyval :=
  path <- py_get params "path" VNone ;;
  content <- py_get params "content" (VStr "") ;;
  create_dirs <- py_get params "create_dirs" (VBool false) ;;
  if negb (truthy path) then
    raise ValueError "path parameter is required"
  else
    (if truthy create_dirs then
       d <- os_path_dirname path ;;
       os_makedirs d
     else ret tt) ;;;
    open_write path content ;;;
    ret (VDict [("success", VBool true)]).

Definition execute (action : string) (params : pyval) : M pyval :=
  try_except
    (if action =? "read" then _handle_read params
     else if action =? "write" then _handle_write params
     else raise ValueError ("Unknown action: " ++ action))
    Exception
    (fun e => ret (VDict [("error", VStr (exn_str e))])).

(** Lines 92-96 of [main]: the parameters read from standard input. *)
Definition read_params : M pyval :=
  try_except
    (data <- stdin_read ;;
     let params_data := strip data in
     if negb (params_data =? "") then lift (json_loads params_data)
     else ret (VDict []))
    JSONDecodeError
    (fun _ => ret (VDict [])).

Definition main (argv : list string) : M unit :=
  (if (length argv <? 2)%nat then
     print (json_dumps (VDict [("error", VStr "action required as first argument")])) ;;;
     sys_exit 1
   else ret tt) ;;;
  let action := nth 1 argv "" in
  params <- read_params ;;
  result <- (if action =? "metadata" then ret get_metadata
             else if action =? "actions" then ret get_actions
             else execute action params) ;;
  print (json_dumps result).

End Plugin.
End FilePlugin.

(** ** examples/plugins/http-plugin.py *)

Module HttpPlugin.
Section Plugin.
Context `{Library}.

Definition metadata : pyval :=
  VDict [("name", VStr "http");
         ("version", VStr "1.0.0");
         ("description", VStr "HTTP client for REST API calls and web requests");
         ("author", VStr "Corynth Team");
         ("tags", VList [VStr "http"; VStr "web"; VStr "api"; VStr "rest"])].

Definition get_metadata : pyval := metadata.

Definition response_outputs : pyval :=
  VDict [("status_code", output_spec "number" "HTTP status code");
         ("headers", output_spec "object" "Response headers");
         ("body", output_spec "string" "Response body")].

Definition get_actions : pyval :=
  VDict [
    ("get", VDict [
       ("description", VStr "Perform HTTP GET request");
       ("inputs", VDict [
          ("url", param_spec "string" true "URL to request");
          ("headers", param_spec "object" false "Request headers");
          ("timeout", param_spec_default "number" false (VInt 30)
                        "Request timeout in seconds")]);
       ("outputs", response_outputs)]);
    ("post", VDict [
       ("description", VStr "Perform HTTP POST request");
       ("inputs", VDict [
          ("url", param_spec "string" true "URL to request");
          ("body", param_spec "string" false "Request body");
          ("headers", param_spec "object" false "Request headers");
          ("timeout", param_spec_default "number" false (VInt 30)
                        "Request timeout in seconds")]);
       ("outputs", response_outputs)])].

(** The dictionary both handlers build from [response]. *)
Definition response_fields (response : http_response) : pyval :=
  VDict [("status_code", VInt (status_code response));
         ("headers", VDict (map (fun kv => (fst kv, VStr (snd kv)))
                                (response_headers response)));
         ("body", VStr (response_text response))].

Definition _handle_get (params : pyval) : M pyval :=
  url <- py_get params "url" VNone ;;
  headers <- py_get params "headers" (VDict []) ;;
  timeout <- py_get params "timeout" (VInt 30) ;;
  if negb (truthy url) then
    raise ValueError "url parameter is required"
  else
    response <- lift (requests_get url headers timeout) ;;
    ret (response_fields response).

Definition _handle_post (params : pyval) : M pyval :=
  url <- py_get params "url" VNone ;;
  body <- py_get params "body" (VStr "") ;;
  headers <- py_get params "headers" (VDict []) ;;
  timeout <- py_get params "timeout" (VInt 30) ;;
  if negb (truthy url) then
    raise ValueError "url parameter is required"
  else
    response <- lift (requests_post url body headers timeout) ;;
    ret (response_fields response).

Definition execute (action : string) (params : pyval) : M pyval :=
  try_except
    (if action =? "get" then _handle_get params
     else if action =? "post" then _handle_post params
     else raise ValueError ("Unknown action: " ++ action))
    Exception
    (fun e => ret (VDict [("error", VStr (exn_str e))])).

(** Lines 107-116 of [main]. In [json.loads(sys.stdin.read()) if
    sys.stdin.read() else {}] Python evaluates the condition first, so the
    argument of [json.loads] is the second [read()]. *)
Definition read_params : M pyval :=
  try_except
    (condition <- stdin_read ;;
     (if negb (condition =? "") then
        again <- stdin_read ;;
        lift (json_loads again)
      else ret (VDict [])) ;;;
     stdin_seek0 ;;;
     data <- stdin_read ;;
     let params_data := strip data in
     if negb (params_data =? "") then lift (json_loads params_data)
     else ret (VDict []))
    JSONDecodeError
    (fun _ => ret (VDict [])).

Definition main (argv : list string) : M unit :=
  (if (length argv <? 2)%nat then
     print (json_dumps (VDict [("error", VStr "action required as first argument")])) ;;;
     sys_exit 1
   else ret tt) ;;;
  let action := nth 1 argv "" in
  params <- read_params ;;
  result <- (if action =? "metadata" then ret get_metadata
             else if action =? "actions" then ret get_actions
             else execute action params) ;;
  print (json_dumps result).

End Plugin.
End HttpPlugin.

(** ** test-calc.py *)

Module CalculatorPlugin.
Section Plugin.
Context `{Library}.

Definition metadata : pyval :=
  VDict [("name", VStr "calculator");
         ("version", VStr "1.0.0");
         ("description", VStr "Mathematical calculations and unit conversions");
         ("author", VStr "Corynth Team");
         ("tags", VList [VStr "math"; VStr "calculation"; VStr "utility"])].

Definition get_metadata : pyval := metadata.

Definition get_actions : pyval :=
  VDict [
    ("calculate", VDict [
       ("description", VStr "Perform mathematical calculations");
       ("inputs", VDict [
          ("expression", param_spec "string" true "Mathematical expression to evaluate");
          ("precision", param_spec_default "number" false (VInt 2) "Decimal precision")]);
       ("outputs", VDict [
          ("result", output_spec "number" "Calculation result");
          ("expression", output_spec "string" "Original expression")])])].

(** [set("0123456789+-*/.()\n\t ")]. *)
Definition allowed_chars : list ascii :=
  list_ascii_of_string "0123456789+-*/.()" ++ [LF; "009"%char; " "%char].

(** What [for c in expression] walks through. *)
Definition py_iter (v : pyval) : M (list pyval) :=
  match v with
  | VStr s => ret (map (fun c => VStr (String c EmptyString)) (list_ascii_of_string s))
  | VList items => ret items
  | VDict entries => ret (map (fun kv => VStr (fst kv)) entries)
  | _ => raise TypeError ("'" ++ type_name v ++ "' object is not iterable")
  end.

(** [c in allowed_chars]: hashing a list or a dict raises. *)
Definition in_allowed_chars (c : pyval) : M bool :=
  match c with
  | VStr (String a EmptyString) => ret (existsb (Ascii.eqb a) allowed_chars)
  | VList _ | VDict _ => raise TypeError ("unhashable type: '" ++ type_name c ++ "'")
  | _ => ret false
  end.

(** [all(p(c) for c in items)] stops at the first false. *)
Fixpoint py_all (p : pyval -> M bool) (items : list pyval) : M bool :=
  match items with
  | [] => ret true
  | c :: rest => b <- p c ;; if b then py_all p rest else ret false
  end.

Definition _handle_calculate (params : pyval) : M pyval :=
  expression <- py_get params "expression" VNone ;;
  precision <- py_get params "precision" (VInt 2) ;;
  if negb (truthy expression) then
    raise ValueError "expression parameter is required"
  else
    items <- py_iter expression ;;
    allowed <- py_all in_allowed_chars items ;;
    if negb allowed then
      raise ValueError "Expression contains invalid characters"
    else
      result <- try_except
                  (value <- lift (py_eval expression) ;;
                   match value with
                   | EvalInt _ | EvalFloat _ => lift (py_round_float value precision)
                   | EvalObject _ => raise ValueError "Expression must result in a number"
                   end)
                  Exception
                  (fun e => raise ValueError ("Invalid expression: " ++ exn_str e)) ;;
      ret (VDict [("result", result); ("expression", expression)]).

Definition execute (action : string) (params : pyval) : M pyval :=
  try_except
    (if action =? "calculate" then _handle_calculate params
     else raise ValueError ("Unknown action: " ++ action))
    Exception
    (fun e => ret (VDict [("error", VStr (exn_str e))])).

(** Lines 83-87 of [main]. *)
Definition read_params : M pyval :=
  try_except
    (data <- stdin_read ;;
     let params_data := strip data in
     if negb (params_data =? "") then lift (json_loads params_data)
     else ret (VDict []))
    JSONDecodeError
    (fun _ => ret (VDict [])).

Definition main (argv : list string) : M unit :=
  (if (length argv <? 2)%nat then
     print (json_dumps (VDict [("error", VStr "action required as first argument")])) ;;;
     sys_exit 1
   else ret tt) ;;;
  let action := nth 1 argv "" in
  params <- read_params ;;
  result <- (if action =? "metadata" then ret get_metadata
             else if action =? "actions" then ret get_actions
             else execute action params) ;;
  print (json_dumps result).

End Plugin.
End CalculatorPlugin.

(** ** The three plugins behind one interface *)

Inductive plugin : Type := File | Http | Calculator.

Section Protocol.
Context `{Library}.

Definition plugin_main (p : plugin) : list string -> M unit :=
  match p with
  | File => FilePlugin.main
  | Http => HttpPlugin.main
  | Calculator => CalculatorPlugin.main
  end.

Definition plugin_read_params (p : plugin) : M pyval :=
  match p with
  | File => FilePlugin.read_params
  | Http => HttpPlugin.read_params
  | Calculator => CalculatorPlugin.read_params
  end.

Definition plugin_execute (p : plugin) : string -> pyval -> M pyval :=
  match p with
  | File => FilePlugin.execute
  | Http => HttpPlugin.execute
  | Calculator => CalculatorPlugin.execute
  end.

Definition plugin_metadata (p : plugin) : pyval :=
  match p with
  | File => FilePlugin.get_metadata
  | Http => HttpPlugin.get_metadata
  | Calculator => CalculatorPlugin.get_metadata
  end.

Definition plugin_actions (p : plugin) : pyval :=
  match p with
  | File => FilePlugin.get_actions
  | Http => HttpPlugin.get_actions
  | Calculator => CalculatorPlugin.get_actions
  end.

(** The handler [execute] invokes for an action name, if it has one. *)
Definition plugin_handler (p : plugin) (action : string) : option (pyval -> M pyval) :=
  match p with
  | File =>
      if action =? "read" then Some FilePlugin._handle_read
      else if action =? "write" then Some FilePlugin._handle_write
      else None
  | Http =>
      if action =? "get" then Some HttpPlugin._handle_get
      else if action =? "post" then Some HttpPlugin._handle_post
      else None
  | Calculator =>
      if action =? "calculate" then Some CalculatorPlugin._handle_calculate
      else None
  end.

End Protocol.

Definition dict_entries (v : pyval) : list (string * pyval) :=
  match v with
  | VDict d => d
  | _ => []
  end.

(** The action names of a catalog. *)
Definition action_names (catalog : pyval) : list string :=
  map fst (dict_entries catalog).

Definition declared_required (spec : pyval) : bool :=
  match dict_lookup "required" (dict_entries spec) with
  | Some (VBool true) => true
  | _ => false
  end.

(** The input parameters a catalog declares with [required = True] for an
    action. *)
Definition required_inputs (catalog : pyval) (action : string) : list string :=
  match dict_lookup action (dict_entries catalog) with
  | Some spec =>
      match dict_lookup "inputs" (dict_entries spec) with
      | Some inputs =>
          map fst (List.filter (fun kv => declared_required (snd kv)) (dict_entries inputs))
      | None => []
      end
  | None => []
  end.

(** The state of a process when [main] starts. *)
Definition initial (stdin : string) (seekable : bool) (w : World) : Process :=
  mkProcess (mkStdin stdin stdin seekable) [] w.

Definition empty_world : World := mkWorld ∅ ∅.

(** A small stand-in for the interpreter's library, to run the plugins on
    examples: a decoder that knows the empty object, a renderer for flat
    objects of strings, no network, and integer literals only. *)
Definition quote (s : string) : string :=
  String "034"%char s ++ String "034"%char EmptyString.

Fixpoint render_entries (d : list (string * pyval)) : string :=
  match d with
  | [] => ""
  | (k, v) :: rest =>
      quote k ++ ": " ++
      match v with
      | VStr s => quote s
      | VBool true => "true"
      | VBool false => "false"
      | _ => "null"
      end ++
      match rest with [] => "" | _ => ", " ++ render_entries rest end
  end.

Definition decode_error : exn :=
  mkExn JSONDecodeError "Expecting value: line 1 column 1 (char 0)".

#[local] Instance example_library : Library := {|
  json_loads s := if s =? "{}" then Ok (VDict []) else Raise decode_error;
  json_dumps v := "{" ++ render_entries (dict_entries v) ++ "}";
  requests_get _ _ _ := Raise (mkExn (LibraryError "ConnectionError") "Connection refused");
  requests_post _ _ _ _ := Raise (mkExn (LibraryError "ConnectionError") "Connection refused");
  py_eval e :=
    match e with
    | VStr "2+2" => Ok (EvalInt 4)
    | _ => Raise (mkExn (LibraryError "SyntaxError") "invalid syntax")
    end;
  py_round_float x _ :=
    match x with
    | EvalInt n => Ok (VFloat (if (n =? 0)%Z then FZero false
                               else FFinite (n <? 0)%Z (Z.to_pos (Z.abs n)) 0))
    | EvalFloat f => Ok (VFloat f)
    | EvalObject _ => Raise (mkExn TypeError "a number is required")
    end
|}.

(** [/dev/null], and a world that has it. *)
Definition null_device : device := mkDevice (fun i => (Ok "", i)) None (Ok false).

Definition dev_world : World :=
  World_of ∅ {["/dev"]} {["/dev/null" := null_device]} ∅ ∅ ∅ ∅.

(** The document [{"path": 1}] and a decoder that knows it. *)
Definition descriptor_document : string := "{" ++ quote "path" ++ ": 1}".

Definition descriptor_library : Library := {|
  json_loads s :=
    if s =? descriptor_document then Ok (VDict [("path", VInt 1)])
    else Raise decode_error;
  json_dumps := @json_dumps example_library;
  requests_get := @requests_get example_library;
  requests_post := @requests_post example_library;
  py_eval := @py_eval example_library;
  py_round_float := @py_round_float example_library
|}.

(** ** Vocabulary of the properties *)

(** A statement that prints nothing. *)
Definition keeps_stdout {A} (m : M A) : Prop :=
  forall s, proc_stdout (snd (m s)) = proc_stdout s.

(** A statement that leaves the file system alone. *)
Definition keeps_world {A} (m : M A) : Prop :=
  forall s, proc_world (snd (m s)) = proc_world s.

(** A statement that neither reads nor changes the process state: its result
    is the same in every state. *)
Definition stateless {A} (m : M A) : Prop :=
  exists r, forall s, m s = (r, s).

(** A statement that leaves a component [f] of the process state as it
    was. *)
Definition preserves {A X} (f : Process -> X) (m : M A) : Prop :=
  forall s, f (snd (m s)) = f s.

(** A statement that has written nothing straight to standard output when
    it raises. *)
Definition raises_quietly {A} (m : M A) : Prop :=
  forall s e s', m s = (inr (Exc e), s') -> proc_emitted s' = proc_emitted s.

(** The process as the host sees it when it ends in state [s] with the
    given status. *)
Definition finished (status : Z) (uncaught : option exn) (s : Process) : Outcome :=
  mkOutcome (delivered s) (exit_status status s) uncaught (proc_world s).

(** The state [print(line)] leaves. *)
Definition after_print (line : string) (s : Process) : Process :=
  snd (print line s).

(** A statement that never leaves through [sys.exit]. *)
Definition never_exits {A} (m : M A) : Prop :=
  forall s code s', m s <> (inr (SystemExit code), s').

(** What the file plugin and the calculator make of standard input: the
    value of their [read_params] as a function of the text. *)
Definition lenient_params `{Library} (stdin : string) : pyval + raised :=
  if strip stdin =? "" then inl (VDict [])
  else match json_loads (strip stdin) with
       | Ok params => inl params
       | Raise e => if isinstance e JSONDecodeError then inl (VDict []) else inr (Exc e)
       end.

(** The normalized path under which the world keeps what a path names. *)
Definition stored_as (w : World) (p : string) : string :=
  match locate w p with
  | AtEntry parent name => key_of (child_of parent name)
  | _ => p
  end.

(** The text of the regular file a path names, if it names one and the
    process may read it. *)
Definition readable_text (w : World) (p : string) : option string :=
  if has_nul p then None
  else match locate w p with
       | AtEntry parent name =>
           let key := key_of (child_of parent name) in
           match entry_at w key with
           | IsFile stored =>
               if bool_decide (key ∈ unreadable w) then None else Some stored
           | _ => None
           end
       | _ => None
       end.

(** The response of a successful write. *)
Definition success_response : pyval := VDict [("success", VBool true)].

(** The params objects [{path: P, content: V}] and [{path: P}]. *)
Definition write_request (P V : string) : pyval :=
  VDict [("path", VStr P); ("content", VStr V)].

Definition read_request (P : string) : pyval := VDict [("path", VStr P)].

Fixpoint contains_cr (s : string) : bool :=
  match s with
  | EmptyString => false
  | String c rest => Ascii.eqb c CR || contains_cr rest
  end.

(** The default a catalog declares for an input parameter of an action. *)
Definition declared_default (catalog : pyval) (action name : string) : option pyval :=
  match dict_lookup action (dict_entries catalog) with
  | Some spec =>
      match dict_lookup "inputs" (dict_entries spec) with
      | Some inputs =>
          match dict_lookup name (dict_entries inputs) with
          | Some param => dict_lookup "default" (dict_entries param)
          | None => None
          end
      | None => None
      end
  | None => None
  end.

(** Whether every character of an expression is one the calculator
    allows. *)
Definition allowed_expression (expression : string) : bool :=
  forallb (fun c => existsb (Ascii.eqb c) CalculatorPlugin.allowed_chars)
          (list_ascii_of_string expression).

(** * Properties *)

(** ** Exceptions and the frame of a statement *)

Lemma issubclass_Exception (c : exc_class) : issubclass c Exception = true.
Proof. destruct c; reflexivity. Qed.

Lemma isinstance_Exception (e : exn) : isinstance e Exception = true.
Proof. apply issubclass_Exception. Qed.

(** [except Exception] lets nothing but [SystemExit] through. *)
Lemma try_except_Exception {A} (body : M A) (handler : exn -> M A) (s : Process) :
  try_except body Exception handler s =
  match body s with
  | (inr (Exc e), s') => handler e s'
  | other => other
  end.
Proof.
  unfold try_except. destruct (body s) as [[a | [e | code]] s']; try reflexivity.
  now rewrite isinstance_Exception.
Qed.

Section Frame.
Context {A B : Type}.

Lemma keeps_stdout_ret (a : A) : keeps_stdout (ret a).
Proof. intro s. reflexivity. Qed.

Lemma keeps_stdout_raise c msg : keeps_stdout (@raise A c msg).
Proof. intro s. reflexivity. Qed.

Lemma keeps_stdout_lift (r : result A) : keeps_stdout (lift r).
Proof. intro s. destruct r; reflexivity. Qed.

Lemma keeps_stdout_bind (m : M A) (k : A -> M B) :
  keeps_stdout m -> (forall a, keeps_stdout (k a)) -> keeps_stdout (bind m k).
Proof.
  intros Hm Hk s. unfold bind. specialize (Hm s).
  destruct (m s) as [[a | r] s1]; simpl in *; [rewrite Hk|]; assumption.
Qed.

Lemma keeps_stdout_try (body : M A) cls (handler : exn -> M A) :
  keeps_stdout body -> (forall e, keeps_stdout (handler e)) ->
  keeps_stdout (try_except body cls handler).
Proof.
  intros Hb Hh s. unfold try_except. specialize (Hb s).
  destruct (body s) as [[a | [e | code]] s1]; simpl in *; try assumption.
  destruct (isinstance e cls); simpl; [rewrite Hh|]; assumption.
Qed.

Lemma keeps_world_ret (a : A) : keeps_world (ret a).
Proof. intro s. reflexivity. Qed.

Lemma keeps_world_lift (r : result A) : keeps_world (lift r).
Proof. intro s. destruct r; reflexivity. Qed.

Lemma keeps_world_bind (m : M A) (k : A -> M B) :
  keeps_world m -> (forall a, keeps_world (k a)) -> keeps_world (bind m k).
Proof.
  intros Hm Hk s. unfold bind. specialize (Hm s).
  destruct (m s) as [[a | r] s1]; simpl in *; [rewrite Hk|]; assumption.
Qed.

Lemma keeps_world_try (body : M A) cls (handler : exn -> M A) :
  keeps_world body -> (forall e, keeps_world (handler e)) ->
  keeps_world (try_except body cls handler).
Proof.
  intros Hb Hh s. unfold try_except. specialize (Hb s).
  destruct (body s) as [[a | [e | code]] s1]; simpl in *; try assumption.
  destruct (isinstance e cls); simpl; [rewrite Hh|]; assumption.
Qed.

Lemma stateless_ret (a : A) : stateless (ret a).
Proof. now exists (inl a). Qed.

Lemma stateless_raise c msg : stateless (@raise A c msg).
Proof. now exists (inr (Exc (mkExn c msg))). Qed.

Lemma stateless_lift (r : result A) : stateless (lift r).
Proof.
  destruct r as [a | e]; [exists (inl a) | exists (inr (Exc e))]; reflexivity.
Qed.

Lemma stateless_bind (m : M A) (k : A -> M B) :
  stateless m -> (forall a, stateless (k a)) -> stateless (bind m k).
Proof.
  intros [[a | r] Hm] Hk.
  - destruct (Hk a) as [rb Hb]. exists rb. intro s. unfold bind.
    now rewrite Hm, Hb.
  - exists (inr r). intro s. unfold bind. now rewrite Hm.
Qed.

Lemma stateless_try (body : M A) cls (handler : exn -> M A) :
  stateless body -> (forall e, stateless (handler e)) ->
  stateless (try_except body cls handler).
Proof.
  intros [r Hb] Hh. unfold try_except.
  destruct r as [a | [e | code]].
  - exists (inl a). intro s. now rewrite Hb.
  - destruct (isinstance e cls) eqn:Hi.
    + destruct (Hh e) as [rh Hrh]. exists rh. intro s. now rewrite Hb, Hi, Hrh.
    + exists (inr (Exc e)). intro s. now rewrite Hb, Hi.
  - exists (inr (SystemExit code)). intro s. now rewrite Hb.
Qed.

Lemma never_exits_ret (a : A) : never_exits (ret a).
Proof. intros s code s'. discriminate. Qed.

Lemma never_exits_raise c msg : never_exits (@raise A c msg).
Proof. intros s code s'. discriminate. Qed.

Lemma never_exits_lift (r : result A) : never_exits (lift r).
Proof. intros s code s'. destruct r; discriminate. Qed.

Lemma never_exits_bind (m : M A) (k : A -> M B) :
  never_exits m -> (forall a, never_exits (k a)) -> never_exits (bind m k).
Proof.
  intros Hm Hk s code s'. unfold bind. specialize (Hm s).
  destruct (m s) as [[a | [e | code1]] s1].
  - apply Hk.
  - discriminate.
  - intro Heq. injection Heq as -> ->. now apply (Hm code s').
Qed.

Lemma never_exits_try (body : M A) cls (handler : exn -> M A) :
  never_exits body -> (forall e, never_exits (handler e)) ->
  never_exits (try_except body cls handler).
Proof.
  intros Hb Hh s code s'. unfold try_except. specialize (Hb s).
  destruct (body s) as [[a | [e | code1]] s1].
  - discriminate.
  - destruct (isinstance e cls); [apply Hh | discriminate].
  - intro Heq. injection Heq as -> ->. now apply (Hb code s').
Qed.

End Frame.

Lemma keeps_stdout_stdin_read : keeps_stdout stdin_read.
Proof. intro s. reflexivity. Qed.

Lemma keeps_stdout_stdin_seek0 : keeps_stdout stdin_seek0.
Proof. intro s. unfold stdin_seek0. destruct (stdin_seekable _); reflexivity. Qed.

Lemma keeps_world_stdin_read : keeps_world stdin_read.
Proof. intro s. reflexivity. Qed.

Lemma keeps_world_stdin_seek0 : keeps_world stdin_seek0.
Proof. intro s. unfold stdin_seek0. destruct (stdin_seekable _); reflexivity. Qed.

Lemma keeps_stdout_get_world : keeps_stdout get_world.
Proof. intro s. reflexivity. Qed.

Lemma keeps_stdout_put_world w : keeps_stdout (put_world w).
Proof. intro s. reflexivity. Qed.

Lemma keeps_stdout_py_get obj key default : keeps_stdout (py_get obj key default).
Proof. intro s. destruct obj; reflexivity. Qed.

Lemma never_exits_stdin_read : never_exits stdin_read.
Proof. intros s code s'. discriminate. Qed.

Lemma never_exits_stdin_seek0 : never_exits stdin_seek0.
Proof.
  intros s code s'. unfold stdin_seek0. destruct (stdin_seekable _); discriminate.
Qed.

Lemma never_exits_get_world : never_exits get_world.
Proof. intros s code s'. discriminate. Qed.

Lemma never_exits_put_world w : never_exits (put_world w).
Proof. intros s code s'. discriminate. Qed.

Lemma never_exits_py_get obj key default : never_exits (py_get obj key default).
Proof. intros s code s'. destruct obj; discriminate. Qed.

Lemma stateless_py_get obj key default : stateless (py_get obj key default).
Proof.
  unfold py_get. destruct obj; first [apply stateless_ret | apply stateless_raise].
Qed.

(** The statements of the file system and of the descriptors. *)

Lemma keeps_stdout_emit text : keeps_stdout (emit text).
Proof. intro s. reflexivity. Qed.

Lemma keeps_stdout_close_fd n : keeps_stdout (close_fd n).
Proof. intro s. reflexivity. Qed.

Lemma keeps_stdout_raise_exn {A} e : keeps_stdout (@raise_exn A e).
Proof. intro s. reflexivity. Qed.

Lemma keeps_stdout_device_read d : keeps_stdout (device_read d).
Proof.
  intro s. unfold device_read.
  destruct (dev_read d (proc_stdin s)) as [[data | e] i]; reflexivity.
Qed.

Lemma keeps_stdout_finally {A} (body : M A) cleanup :
  keeps_stdout body -> keeps_stdout cleanup -> keeps_stdout (finally body cleanup).
Proof.
  intros Hb Hc s. unfold finally. specialize (Hb s).
  destruct (body s) as [r s']. cbn [snd] in *. now rewrite Hc.
Qed.

Lemma keeps_stdout_with_descriptor {A} n (use : device -> M A) :
  (forall d, keeps_stdout (use d)) -> keeps_stdout (with_descriptor n use).
Proof.
  intros Huse s. unfold with_descriptor.
  destruct (_ || _)%Z; [reflexivity|].
  destruct (n <? 0)%Z; [reflexivity|].
  destruct (existsb _ _); [reflexivity|].
  destruct (fd_device _ _) as [d|]; [|reflexivity].
  apply keeps_stdout_finally; [apply Huse | apply keeps_stdout_close_fd].
Qed.

Lemma never_exits_emit text : never_exits (emit text).
Proof. intros s code s'. discriminate. Qed.

Lemma never_exits_close_fd n : never_exits (close_fd n).
Proof. intros s code s'. discriminate. Qed.

Lemma never_exits_raise_exn {A} e : never_exits (@raise_exn A e).
Proof. intros s code s'. discriminate. Qed.

Lemma never_exits_device_read d : never_exits (device_read d).
Proof.
  intros s code s'. unfold device_read.
  destruct (dev_read d (proc_stdin s)) as [[data | e] i]; discriminate.
Qed.

Lemma never_exits_finally {A} (body : M A) cleanup :
  never_exits body -> never_exits (finally body cleanup).
Proof.
  intros Hb s code s'. unfold finally. specialize (Hb s).
  destruct (body s) as [r s1]. intros [= -> _]. now apply (Hb code s1).
Qed.

Lemma never_exits_with_descriptor {A} n (use : device -> M A) :
  (forall d, never_exits (use d)) -> never_exits (with_descriptor n use).
Proof.
  intros Huse s code s'. unfold with_descriptor.
  destruct (_ || _)%Z; [discriminate|].
  destruct (n <? 0)%Z; [discriminate|].
  destruct (existsb _ _); [discriminate|].
  destruct (fd_device _ _) as [d|]; [|discriminate].
  apply never_exits_finally, Huse.
Qed.

Lemma keeps_world_emit text : keeps_world (emit text).
Proof. intro s. reflexivity. Qed.

Lemma keeps_world_close_fd n : keeps_world (close_fd n).
Proof. intro s. reflexivity. Qed.

Lemma keeps_world_raise_exn {A} e : keeps_world (@raise_exn A e).
Proof. intro s. reflexivity. Qed.

Lemma keeps_world_device_read d : keeps_world (device_read d).
Proof.
  intro s. unfold device_read.
  destruct (dev_read d (proc_stdin s)) as [[data | e] i]; reflexivity.
Qed.

Lemma keeps_world_finally {A} (body : M A) cleanup :
  keeps_world body -> keeps_world cleanup -> keeps_world (finally body cleanup).
Proof.
  intros Hb Hc s. unfold finally. specialize (Hb s).
  destruct (body s) as [r s']. cbn [snd] in *. now rewrite Hc.
Qed.

Lemma keeps_world_with_descriptor {A} n (use : device -> M A) :
  (forall d, keeps_world (use d)) -> keeps_world (with_descriptor n use).
Proof.
  intros Huse s. unfold with_descriptor.
  destruct (_ || _)%Z; [reflexivity|].
  destruct (n <? 0)%Z; [reflexivity|].
  destruct (existsb _ _); [reflexivity|].
  destruct (fd_device _ _) as [d|]; [|reflexivity].
  apply keeps_world_finally; [apply Huse | apply keeps_world_close_fd].
Qed.

Create HintDb frame.
#[local] Hint Resolve keeps_stdout_emit keeps_stdout_close_fd keeps_stdout_device_read
  never_exits_emit never_exits_close_fd never_exits_device_read
  keeps_world_emit keeps_world_close_fd keeps_world_device_read : frame.
#[local] Hint Extern 1 (keeps_stdout (raise_exn _)) => apply keeps_stdout_raise_exn : frame.
#[local] Hint Extern 1 (never_exits (raise_exn _)) => apply never_exits_raise_exn : frame.
#[local] Hint Extern 1 (keeps_world (raise_exn _)) => apply keeps_world_raise_exn : frame.
#[local] Hint Resolve keeps_stdout_stdin_read keeps_stdout_stdin_seek0
  keeps_world_stdin_read keeps_world_stdin_seek0
  keeps_stdout_get_world keeps_stdout_put_world keeps_stdout_py_get
  stateless_py_get
  never_exits_stdin_read never_exits_stdin_seek0 never_exits_get_world
  never_exits_put_world never_exits_py_get : frame.
#[local] Hint Extern 1 (never_exits (ret _)) => apply never_exits_ret : frame.
#[local] Hint Extern 1 (never_exits (raise _ _)) => apply never_exits_raise : frame.
#[local] Hint Extern 1 (never_exits (lift _)) => apply never_exits_lift : frame.
#[local] Hint Extern 1 (keeps_stdout (ret _)) => apply keeps_stdout_ret : frame.
#[local] Hint Extern 1 (keeps_stdout (raise _ _)) => apply keeps_stdout_raise : frame.
#[local] Hint Extern 1 (keeps_stdout (lift _)) => apply keeps_stdout_lift : frame.
#[local] Hint Extern 1 (keeps_world (ret _)) => apply keeps_world_ret : frame.
#[local] Hint Extern 1 (keeps_world (lift _)) => apply keeps_world_lift : frame.
#[local] Hint Extern 1 (stateless (ret _)) => apply stateless_ret : frame.
#[local] Hint Extern 1 (stateless (raise _ _)) => apply stateless_raise : frame.
#[local] Hint Extern 1 (stateless (lift _)) => apply stateless_lift : frame.

(** Walks through a statement: sequencing, [try], branches. *)
Ltac frame :=
  repeat first
    [ solve [auto with frame]
    | apply keeps_stdout_bind; [|intro]
    | apply keeps_world_bind; [|intro]
    | apply stateless_bind; [|intro]
    | apply never_exits_bind; [|intro]
    | apply never_exits_try; [|intro]
    | apply keeps_stdout_try; [|intro]
    | apply keeps_world_try; [|intro]
    | apply stateless_try; [|intro]
    | apply keeps_stdout_with_descriptor; intro
    | apply never_exits_with_descriptor; intro
    | apply keeps_world_with_descriptor; intro
    | match goal with
      | |- _ (if ?b then _ else _) => destruct b
      | |- _ (match ?x with _ => _ end) => destruct x
      end ].

Lemma keeps_stdout_written_text content : keeps_stdout (written_text content).
Proof. unfold written_text. frame. Qed.

Lemma never_exits_written_text content : never_exits (written_text content).
Proof. unfold written_text. frame. Qed.

Lemma keeps_stdout_device_write d text : keeps_stdout (device_write d text).
Proof. unfold device_write. frame. Qed.

Lemma never_exits_device_write d text : never_exits (device_write d text).
Proof. unfold device_write. frame. Qed.

#[local] Hint Resolve keeps_stdout_written_text never_exits_written_text
  keeps_stdout_device_write never_exits_device_write : frame.

Lemma keeps_stdout_os_path_dirname path : keeps_stdout (os_path_dirname path).
Proof. unfold os_path_dirname. frame. Qed.

Lemma keeps_stdout_os_makedirs d : keeps_stdout (os_makedirs d).
Proof. unfold os_makedirs. frame. Qed.

Lemma keeps_stdout_open_read path : keeps_stdout (open_read path).
Proof. unfold open_read. frame. Qed.

Lemma keeps_stdout_open_write path content : keeps_stdout (open_write path content).
Proof. unfold open_write. frame. Qed.

Lemma never_exits_os_path_dirname path : never_exits (os_path_dirname path).
Proof. unfold os_path_dirname. frame. Qed.

Lemma never_exits_os_makedirs d : never_exits (os_makedirs d).
Proof. unfold os_makedirs. frame. Qed.

Lemma never_exits_open_read path : never_exits (open_read path).
Proof. unfold open_read. frame. Qed.

Lemma never_exits_open_write path content : never_exits (open_write path content).
Proof. unfold open_write. frame. Qed.

#[local] Hint Resolve keeps_stdout_os_path_dirname keeps_stdout_os_makedirs
  keeps_stdout_open_read keeps_stdout_open_write
  never_exits_os_path_dirname never_exits_os_makedirs
  never_exits_open_read never_exits_open_write : frame.

(** ** Descriptors and what reaches standard output directly *)

Section Preserves.
Context {X : Type} (f : Process -> X).
Hypothesis f_stdin : forall i s, f (with_stdin i s) = f s.
Hypothesis f_world : forall w s, f (with_world w s) = f s.

Lemma preserves_ret {A} (a : A) : preserves f (ret a).
Proof. intro s. reflexivity. Qed.

Lemma preserves_raise {A} c msg : preserves f (@raise A c msg).
Proof. intro s. reflexivity. Qed.

Lemma preserves_raise_exn {A} e : preserves f (@raise_exn A e).
Proof. intro s. reflexivity. Qed.

Lemma preserves_lift {A} (r : result A) : preserves f (lift r).
Proof. intro s. destruct r; reflexivity. Qed.

Lemma preserves_bind {A B} (m : M A) (k : A -> M B) :
  preserves f m -> (forall a, preserves f (k a)) -> preserves f (bind m k).
Proof.
  intros Hm Hk s. unfold bind. specialize (Hm s).
  destruct (m s) as [[a | r] s1]; cbn [snd] in *; [rewrite Hk|]; assumption.
Qed.

Lemma preserves_try {A} (body : M A) cls (handler : exn -> M A) :
  preserves f body -> (forall e, preserves f (handler e)) ->
  preserves f (try_except body cls handler).
Proof.
  intros Hb Hh s. unfold try_except. specialize (Hb s).
  destruct (body s) as [[a | [e | code]] s1]; cbn [snd] in *; try assumption.
  destruct (isinstance e cls); cbn [snd]; [rewrite Hh|]; assumption.
Qed.

Lemma preserves_finally {A} (body : M A) cleanup :
  preserves f body -> preserves f cleanup -> preserves f (finally body cleanup).
Proof.
  intros Hb Hc s. unfold finally. specialize (Hb s).
  destruct (body s) as [r s']. cbn [snd] in *. now rewrite Hc.
Qed.

Lemma preserves_with_descriptor {A} n (use : device -> M A) :
  (forall d, preserves f (use d)) -> preserves f (close_fd n) ->
  preserves f (with_descriptor n use).
Proof.
  intros Huse Hclose s. unfold with_descriptor.
  destruct (_ || _)%Z; [reflexivity|].
  destruct (n <? 0)%Z; [reflexivity|].
  destruct (existsb _ _); [reflexivity|].
  destruct (fd_device _ _) as [d|]; [|reflexivity].
  now apply preserves_finally.
Qed.

Lemma preserves_stdin_read : preserves f stdin_read.
Proof. intro s. apply f_stdin. Qed.

Lemma preserves_stdin_seek0 : preserves f stdin_seek0.
Proof.
  intro s. unfold stdin_seek0. destruct (stdin_seekable _); [apply f_stdin | reflexivity].
Qed.

Lemma preserves_device_read d : preserves f (device_read d).
Proof.
  intro s. unfold device_read.
  destruct (dev_read d (proc_stdin s)) as [[data | e] i]; apply f_stdin.
Qed.

Lemma preserves_get_world : preserves f get_world.
Proof. intro s. reflexivity. Qed.

Lemma preserves_put_world w : preserves f (put_world w).
Proof. intro s. apply f_world. Qed.

Lemma preserves_py_get obj key default : preserves f (py_get obj key default).
Proof. intro s. destruct obj; reflexivity. Qed.

Lemma preserves_written_text content : preserves f (written_text content).
Proof. intro s. destruct content; reflexivity. Qed.

Lemma preserves_os_path_dirname path : preserves f (os_path_dirname path).
Proof. intro s. destruct path; reflexivity. Qed.

Lemma preserves_os_makedirs d : preserves f (os_makedirs d).
Proof.
  unfold os_makedirs. apply preserves_bind; [apply preserves_get_world|].
  intro w. destruct (makedirs _ _ _);
    [apply preserves_put_world | apply preserves_lift].
Qed.

End Preserves.

(** Walks through a statement that uses neither [emit] nor [close_fd]. *)
Ltac preserving :=
  repeat first
    [ apply preserves_ret | apply preserves_raise | apply preserves_raise_exn
    | apply preserves_lift
    | apply preserves_stdin_read; reflexivity
    | apply preserves_stdin_seek0; reflexivity
    | apply preserves_device_read; reflexivity
    | apply preserves_get_world
    | apply preserves_put_world; reflexivity
    | apply preserves_py_get
    | apply preserves_written_text
    | apply preserves_os_path_dirname
    | apply preserves_os_makedirs; reflexivity
    | apply preserves_bind; [|intro]
    | apply preserves_try; [|intro]
    | match goal with
      | |- preserves _ (if ?b then _ else _) => destruct b
      | |- preserves _ (match ?x with _ => _ end) => destruct x
      end ].

Lemma quiet_close_fd n : preserves proc_emitted (close_fd n).
Proof. intro s. reflexivity. Qed.

(** Reading a file writes nothing to standard output. *)
Lemma quiet_open_read path : preserves proc_emitted (open_read path).
Proof.
  unfold open_read. preserving;
    (apply preserves_with_descriptor;
     [intro; apply preserves_device_read; reflexivity | apply quiet_close_fd]).
Qed.

Section RaisesQuietly.
Context {A B : Type}.

Lemma quiet_raises_quietly (m : M A) : preserves proc_emitted m -> raises_quietly m.
Proof. intros Hm s e s' Hrun. specialize (Hm s). now rewrite Hrun in Hm. Qed.

(** After a statement that writes nothing. *)
Lemma raises_quietly_bind (m : M A) (k : A -> M B) :
  preserves proc_emitted m -> (forall a, raises_quietly (k a)) ->
  raises_quietly (bind m k).
Proof.
  intros Hm Hk s e s'. unfold bind. specialize (Hm s).
  destruct (m s) as [[a | r] s1]; cbn [snd] in Hm.
  - intro Hrun. rewrite (Hk a s1 e s' Hrun). exact Hm.
  - now intros [= _ <-].
Qed.

(** Before a statement that only returns. *)
Lemma raises_quietly_then_ret (m : M A) (b : B) :
  raises_quietly m -> raises_quietly (bind m (fun _ => ret b)).
Proof.
  intros Hm s e s'. unfold bind. specialize (Hm s).
  destruct (m s) as [[a | r] s1]; [discriminate|].
  intros [= -> <-]. now apply (Hm e).
Qed.

Lemma raises_quietly_finally (m : M A) cleanup :
  raises_quietly m -> preserves proc_emitted cleanup ->
  raises_quietly (finally m cleanup).
Proof.
  intros Hm Hc s e s'. unfold finally. specialize (Hm s).
  destruct (m s) as [r s1]. intros [= -> <-]. rewrite Hc. now apply (Hm e).
Qed.

End RaisesQuietly.

Lemma raises_quietly_device_write d text : raises_quietly (device_write d text).
Proof.
  unfold device_write. destruct (text =? ""); [intros s e s'; discriminate|].
  destruct (dev_write d) as [[|] | e0]; intros s e s'; try discriminate.
  now intros [= _ <-].
Qed.

Lemma raises_quietly_with_descriptor {A} n (use : device -> M A) :
  (forall d, raises_quietly (use d)) -> raises_quietly (with_descriptor n use).
Proof.
  intros Huse s e s'. unfold with_descriptor.
  destruct (_ || _)%Z; [now intros [= _ <-]|].
  destruct (n <? 0)%Z; [now intros [= _ <-]|].
  destruct (existsb _ _); [now intros [= _ <-]|].
  destruct (fd_device _ _) as [d|]; [|now intros [= _ <-]].
  apply raises_quietly_finally; [apply Huse | apply quiet_close_fd].
Qed.

(** A write that raises has written nothing to standard output: what goes
    to a device goes there when the file is closed, the last thing the
    statement does. *)
Lemma raises_quietly_open_write path content :
  raises_quietly (open_write path content).
Proof.
  assert (Hsend : forall d, raises_quietly
            (text <- written_text content ;; device_write d text)).
  { intro d. apply raises_quietly_bind;
      [apply preserves_written_text | intro; apply raises_quietly_device_write]. }
  unfold open_write.
  destruct path; try (apply quiet_raises_quietly; preserving; fail);
    try (apply raises_quietly_with_descriptor, Hsend).
  destruct (has_nul s); [apply quiet_raises_quietly; preserving|].
  apply raises_quietly_bind; [preserving|]. intro w.
  destruct (locate_to_create w s) as [l | parent name | e0];
    try (apply quiet_raises_quietly; preserving; fail).
  destruct (entry_at w _) as [| d | stored |];
    try (apply quiet_raises_quietly; preserving; fail).
  destruct (dev_open_write d); [apply quiet_raises_quietly; preserving | apply Hsend].
Qed.

(** ** The shape of [main] *)

Section Main.
Context `{Library}.

Lemma keeps_stdout_read_params p : keeps_stdout (plugin_read_params p).
Proof.
  destruct p; cbn [plugin_read_params];
    unfold FilePlugin.read_params, HttpPlugin.read_params,
           CalculatorPlugin.read_params; frame.
Qed.

Lemma keeps_world_read_params p : keeps_world (plugin_read_params p).
Proof.
  destruct p; cbn [plugin_read_params];
    unfold FilePlugin.read_params, HttpPlugin.read_params,
           CalculatorPlugin.read_params; frame.
Qed.

Lemma read_params_preserves {X} (f : Process -> X) p :
  (forall i s, f (with_stdin i s) = f s) ->
  preserves f (plugin_read_params p).
Proof.
  intro Hf.
  destruct p; cbn [plugin_read_params];
    unfold FilePlugin.read_params, HttpPlugin.read_params,
           CalculatorPlugin.read_params;
    repeat first
      [ apply preserves_ret | apply preserves_lift
      | apply preserves_stdin_read; exact Hf
      | apply preserves_stdin_seek0; exact Hf
      | apply preserves_bind; [|intro]
      | apply preserves_try; [|intro]
      | match goal with
        | |- preserves _ (if ?b then _ else _) => destruct b
        end ].
Qed.

(** The reader prints nothing, closes nothing and leaves the world alone:
    after it, standard output is as the process found it. *)
Lemma after_read_params p stdin seekable w r s :
  plugin_read_params p (initial stdin seekable w) = (r, s) ->
  proc_stdout s = [] /\ proc_emitted s = [] /\ proc_closed s = [] /\ proc_world s = w.
Proof.
  intro Hread.
  pose proof (read_params_preserves proc_stdout p (fun _ _ => eq_refl)
                (initial stdin seekable w)) as H1.
  pose proof (read_params_preserves proc_emitted p (fun _ _ => eq_refl)
                (initial stdin seekable w)) as H2.
  pose proof (read_params_preserves proc_closed p (fun _ _ => eq_refl)
                (initial stdin seekable w)) as H3.
  pose proof (read_params_preserves proc_world p (fun _ _ => eq_refl)
                (initial stdin seekable w)) as H4.
  rewrite Hread in H1, H2, H3, H4. now repeat split.
Qed.

Lemma keeps_stdout_py_all p items :
  (forall c, keeps_stdout (p c)) -> keeps_stdout (CalculatorPlugin.py_all p items).
Proof. intro Hp. induction items as [|c rest IH]; cbn [CalculatorPlugin.py_all]; frame. Qed.

Lemma keeps_stdout_execute p action params :
  keeps_stdout (plugin_execute p action params).
Proof.
  destruct p; cbn [plugin_execute];
    unfold FilePlugin.execute, FilePlugin._handle_read, FilePlugin._handle_write,
           HttpPlugin.execute, HttpPlugin._handle_get, HttpPlugin._handle_post,
           CalculatorPlugin.execute, CalculatorPlugin._handle_calculate;
    frame.
  - unfold CalculatorPlugin.py_iter. frame.
  - apply keeps_stdout_py_all. intro c. unfold CalculatorPlugin.in_allowed_chars. frame.
Qed.

Lemma never_exits_py_all p items :
  (forall c, never_exits (p c)) -> never_exits (CalculatorPlugin.py_all p items).
Proof. intro Hp. induction items as [|c rest IH]; cbn [CalculatorPlugin.py_all]; frame. Qed.

Lemma never_exits_execute p action params :
  never_exits (plugin_execute p action params).
Proof.
  destruct p; cbn [plugin_execute];
    unfold FilePlugin.execute, FilePlugin._handle_read, FilePlugin._handle_write,
           HttpPlugin.execute, HttpPlugin._handle_get, HttpPlugin._handle_post,
           CalculatorPlugin.execute, CalculatorPlugin._handle_calculate;
    frame.
  - unfold CalculatorPlugin.py_iter. frame.
  - apply never_exits_py_all. intro c. unfold CalculatorPlugin.in_allowed_chars. frame.
Qed.

(** What the host observes of a run that was given an action, in terms of
    the three stages of [main]: reading the parameters, computing the
    result, printing it. *)
Lemma run_main_stages p prog action rest stdin seekable w :
  run_process (plugin_main p) (prog :: action :: rest) stdin seekable w =
  match plugin_read_params p (initial stdin seekable w) with
  | (inl params, s) =>
      if action =? "metadata" then
        finished 0 None (after_print (json_dumps (plugin_metadata p)) s)
      else if action =? "actions" then
        finished 0 None (after_print (json_dumps (plugin_actions p)) s)
      else
        match plugin_execute p action params s with
        | (inl response, s') => finished 0 None (after_print (json_dumps response) s')
        | (inr (Exc e), s') => finished 1 (Some e) s'
        | (inr (SystemExit code), s') => finished code None s'
        end
  | (inr (Exc e), s) => finished 1 (Some e) s
  | (inr (SystemExit code), s) => finished code None s
  end.
Proof.
  unfold run_process, initial.
  destruct p; cbn [plugin_main plugin_read_params plugin_execute
                   plugin_metadata plugin_actions];
    unfold FilePlugin.main, HttpPlugin.main, CalculatorPlugin.main;
    cbn [length Nat.ltb Nat.leb nth]; unfold bind at 1 2; cbn [ret];
    match goal with
    | |- context [?rp (mkProcess ?i ?o ?w')] =>
        destruct (rp (mkProcess i o w')) as [[params | [e | code]] s]
    end; try reflexivity;
    unfold bind; destruct (action =? "metadata"); try reflexivity;
    destruct (action =? "actions"); try reflexivity;
    match goal with
    | |- _ = match ?run with (_, _) => _ end =>
        destruct run as [[response | [e | code]] s']
    end; reflexivity.
Qed.

(** A process whose standard output is open and that has written nothing
    past the buffer delivers what it has printed. *)
Lemma finished_after_print status uncaught line s :
  stdout_open s = true -> proc_emitted s = [] ->
  finished status uncaught (after_print line s)
  = mkOutcome (proc_stdout s ++ [line]) status uncaught (proc_world s).
Proof.
  intros Hopen Hemit. unfold finished, after_print, delivered, exit_status, stdout_open in *.
  cbn. now rewrite Hopen, Hemit.
Qed.

(** A run that was given no action: the protocol failure of every plugin. *)
Lemma run_main_without_action p argv stdin seekable w :
  (length argv < 2)%nat ->
  run_process (plugin_main p) argv stdin seekable w =
  mkOutcome [json_dumps (error_response "action required as first argument")] 1 None w.
Proof.
  intro Hlen. apply Nat.ltb_lt in Hlen.
  unfold run_process.
  destruct p; cbn [plugin_main];
    unfold FilePlugin.main, HttpPlugin.main, CalculatorPlugin.main;
    rewrite Hlen; reflexivity.
Qed.

End Main.

(** ** The executor *)

Section Executor.
Context `{Library}.

(** [execute] is its handler, or the complaint about an unknown action,
    inside [try ... except Exception]. *)
Lemma execute_dispatch p action params :
  plugin_execute p action params =
  try_except
    match plugin_handler p action with
    | Some handler => handler params
    | None => raise ValueError ("Unknown action: " ++ action)
    end
    Exception
    (fun e => ret (error_response (exn_str e))).
Proof.
  destruct p; cbn [plugin_execute plugin_handler];
    unfold FilePlugin.execute, HttpPlugin.execute, CalculatorPlugin.execute;
    repeat match goal with
           | |- context [if ?b then _ else _] => destruct b
           end; reflexivity.
Qed.

(** The names [execute] has a handler for are the names of the catalog. *)
Lemma handler_iff_catalogued p action :
  In action (action_names (plugin_actions p)) <->
  exists handler, plugin_handler p action = Some handler.
Proof.
  destruct p; cbn; split.
  all: try (intros [<- | [<- | []]]; eexists; reflexivity).
  all: try (intros [<- | []]; eexists; reflexivity).
  all: intros [handler Hh];
    repeat match type of Hh with
           | context [?a =? ?b] =>
               destruct (String.eqb_spec a b); [subst; tauto|]
           end; discriminate.
Qed.

(** The handlers of the HTTP plugin and of the calculator leave the process
    state as it is. *)
Lemma stateless_http_calculator_handler p action handler params :
  p <> File -> plugin_handler p action = Some handler -> stateless (handler params).
Proof.
  intros Hp Hh. destruct p; [contradiction| |]; cbn [plugin_handler] in Hh;
    repeat match type of Hh with
           | context [if ?b then _ else _] => destruct b
           end; try discriminate; injection Hh as <-.
  - unfold HttpPlugin._handle_get. frame.
  - unfold HttpPlugin._handle_post. frame.
  - unfold CalculatorPlugin._handle_calculate. frame.
    + unfold CalculatorPlugin.py_iter. frame.
    + match goal with
      | |- stateless (CalculatorPlugin.py_all _ ?items) =>
          induction items as [|c rest IH]; cbn [CalculatorPlugin.py_all]; frame
      end.
      unfold CalculatorPlugin.in_allowed_chars. frame.
Qed.

(** A handler that raises has written nothing straight to standard
    output. *)
Lemma raising_handler_is_quiet p action handler params :
  plugin_handler p action = Some handler -> raises_quietly (handler params).
Proof.
  intro Hh. destruct p.
  - cbn [plugin_handler] in Hh.
    repeat match type of Hh with
           | context [if ?b then _ else _] => destruct b
           end; try discriminate; injection Hh as <-.
    + apply quiet_raises_quietly. unfold FilePlugin._handle_read.
      preserving. apply quiet_open_read.
    + unfold FilePlugin._handle_write.
      repeat (apply raises_quietly_bind; [preserving|]; intro).
      destruct (negb _); [apply quiet_raises_quietly; preserving|].
      apply raises_quietly_bind; [preserving|]. intros _.
      apply raises_quietly_then_ret, raises_quietly_open_write.
  - destruct (stateless_http_calculator_handler Http action handler params) as [r Hr];
      [discriminate | exact Hh |].
    intros s e s'. rewrite Hr. now intros [= _ <-].
  - destruct (stateless_http_calculator_handler Calculator action handler params)
      as [r Hr]; [discriminate | exact Hh |].
    intros s e s'. rewrite Hr. now intros [= _ <-].
Qed.


(** C4. For each plugin, each action name that is neither "metadata" nor
    "actions" nor a name of the plugin's catalog, and each params object:
    [execute] returns exactly [{"error": "Unknown action: " + a}], touching
    nothing, and the process that read these params prints it and exits
    with code 0. *)
Theorem unknown_action_error p action params :
  action <> "metadata" -> action <> "actions" ->
  ~ In action (action_names (plugin_actions p)) ->
  (forall s, plugin_execute p action params s
             = (inl (error_response ("Unknown action: " ++ action)), s)) /\
  forall s prog rest stdin seekable w,
    plugin_read_params p (initial stdin seekable w) = (inl params, s) ->
    run_process (plugin_main p) (prog :: action :: rest) stdin seekable w =
    mkOutcome [json_dumps (error_response ("Unknown action: " ++ action))] 0 None w.
Proof.
  intros Hmeta Hact Hunknown.
  assert (Hnone : plugin_handler p action = None).
  { destruct (plugin_handler p action) as [handler|] eqn:Hh; [|reflexivity].
    exfalso. apply Hunknown, handler_iff_catalogued. now exists handler. }
  assert (Hexec : forall s, plugin_execute p action params s
                    = (inl (error_response ("Unknown action: " ++ action)), s)).
  { intro s. rewrite execute_dispatch, Hnone, try_except_Exception. reflexivity. }
  split; [exact Hexec|].
  intros s prog rest stdin seekable w Hread.
  rewrite run_main_stages, Hread.
  apply String.eqb_neq in Hmeta, Hact. rewrite Hmeta, Hact, Hexec.
  destruct (after_read_params p stdin seekable w _ s Hread)
    as (Hout & Hemit & Hclosed & Hw).
  rewrite finished_after_print; [now rewrite Hout, Hw | | exact Hemit].
  unfold stdout_open. now rewrite Hclosed.
Qed.

End Executor.



(** The calculator asked to "frobnicate". *)
Lemma unknown_action_error_witness :
  (forall s, CalculatorPlugin.execute "frobnicate" (VDict []) s
             = (inl (error_response "Unknown action: frobnicate"), s)) /\
  run_process CalculatorPlugin.main ["test-calc.py"; "frobnicate"] "{}" false empty_world
  = mkOutcome [json_dumps (error_response "Unknown action: frobnicate")] 0 None empty_world.
Proof.
  destruct (unknown_action_error Calculator "frobnicate" (VDict [])) as [Hexec Hrun];
    try discriminate.
  { cbn. intros [Heq | []]. discriminate Heq. }
  split; [exact Hexec|].
  apply (Hrun (mkProcess (mkStdin "{}" "" false) [] empty_world)
              "test-calc.py" [] "{}" false empty_world).
  reflexivity.
Defined.

(** ** The request reader *)

Section Reader.
Context `{Library}.

Lemma file_read_params stdin seekable w :
  FilePlugin.read_params (initial stdin seekable w)
  = (lenient_params stdin, mkProcess (mkStdin stdin "" seekable) [] w).
Proof.
  unfold FilePlugin.read_params, lenient_params, try_except, bind, stdin_read, initial.
  cbn -[strip isinstance]. destruct (strip stdin =? ""); cbn -[strip isinstance]; [reflexivity|].
  destruct (json_loads (strip stdin)) as [params | e]; cbn -[isinstance]; [reflexivity|].
  destruct (isinstance e JSONDecodeError); reflexivity.
Qed.

Lemma calculator_read_params stdin seekable w :
  CalculatorPlugin.read_params (initial stdin seekable w)
  = (lenient_params stdin, mkProcess (mkStdin stdin "" seekable) [] w).
Proof. exact (file_read_params stdin seekable w). Qed.

(** The file plugin and the calculator read the empty object from an empty
    or blank standard input and from one that does not parse. *)
Lemma lenient_params_empty stdin :
  strip stdin = "" -> lenient_params stdin = inl (VDict []).
Proof. intro He. unfold lenient_params. now rewrite He. Qed.

Lemma lenient_params_malformed stdin e :
  json_loads (strip stdin) = Raise e -> exn_class e = JSONDecodeError ->
  lenient_params stdin = inl (VDict []).
Proof.
  intros Hl Hc. unfold lenient_params. rewrite Hl.
  unfold isinstance. rewrite Hc. cbn. now destruct (strip stdin =? "").
Qed.

(** The HTTP plugin on a standard input that is not empty: the second
    [read()] hands [json.loads] the empty string. Where that raises
    [JSONDecodeError], as it does in Python, the parameters are the empty
    object whatever the host wrote. *)
Lemma http_read_params_nonempty stdin seekable w e :
  stdin <> "" ->
  json_loads "" = Raise e -> exn_class e = JSONDecodeError ->
  HttpPlugin.read_params (initial stdin seekable w)
  = (inl (VDict []), mkProcess (mkStdin stdin "" seekable) [] w).
Proof.
  intros Hne Hl Hc. apply String.eqb_neq in Hne.
  unfold HttpPlugin.read_params, try_except, bind, stdin_read, initial.
  cbn -[strip isinstance]. rewrite Hne. cbn -[strip isinstance]. rewrite Hl.
  cbn -[strip isinstance]. unfold isinstance. rewrite Hc. reflexivity.
Qed.

(** The HTTP plugin on an empty standard input that can seek. *)
Lemma http_read_params_empty_seekable w :
  HttpPlugin.read_params (initial "" true w)
  = (inl (VDict []), mkProcess (mkStdin "" "" true) [] w).
Proof. reflexivity. Qed.

(** C5. The HTTP plugin started with an action and an empty standard input
    on a pipe: [sys.stdin.seek(0)] raises [io.UnsupportedOperation], which
    [except json.JSONDecodeError] does not catch; the reader yields no
    params at all, where the specification has it yield the empty object. *)
Theorem http_read_params_empty_pipe_raises w :
  HttpPlugin.read_params (initial "" false w)
  = (inr (Exc (mkExn UnsupportedOperation "underlying stream is not seekable")),
     mkProcess (mkStdin "" "" false) [] w).
Proof. reflexivity. Qed.

(** C2. The HTTP plugin started with an action and an empty standard input
    on a pipe terminates without having written anything to standard
    output. *)
Theorem http_main_empty_pipe_prints_nothing prog action rest w :
  out_stdout (run_process HttpPlugin.main (prog :: action :: rest) "" false w) = [].
Proof. reflexivity. Qed.

(** C3. The HTTP plugin started with an action and an empty standard input
    on a pipe dies of the uncaught [io.UnsupportedOperation]: its exit code
    is 1 although the action argument is there. *)
Theorem http_main_empty_pipe_exit_code prog action rest w :
  (2 <= length (prog :: action :: rest))%nat /\
  out_code (run_process HttpPlugin.main (prog :: action :: rest) "" false w) = 1%Z /\
  out_uncaught (run_process HttpPlugin.main (prog :: action :: rest) "" false w)
  = Some (mkExn UnsupportedOperation "underlying stream is not seekable").
Proof. cbn [length]. split; [lia|]. split; reflexivity. Qed.

(** C7. The HTTP plugin asked for "metadata" or for "actions" with an empty
    standard input on a pipe prints neither: the reader runs before the
    introspection branch is reached, and the process dies in it. *)
Theorem http_introspection_empty_pipe_crashes prog w :
  let crash := mkOutcome [] 1
                 (Some (mkExn UnsupportedOperation "underlying stream is not seekable")) w in
  run_process HttpPlugin.main [prog; "metadata"] "" false w = crash /\
  run_process HttpPlugin.main [prog; "actions"] "" false w = crash.
Proof. split; reflexivity. Qed.

(** Once the reader has returned, "metadata" and "actions" print the
    descriptor of the plugin, whatever the params, and the executor does
    not run: the file system is the one the process started with. *)
Lemma introspection_ignores_params p prog rest stdin seekable w params s :
  plugin_read_params p (initial stdin seekable w) = (inl params, s) ->
  run_process (plugin_main p) (prog :: "metadata" :: rest) stdin seekable w
  = mkOutcome [json_dumps (plugin_metadata p)] 0 None w /\
  run_process (plugin_main p) (prog :: "actions" :: rest) stdin seekable w
  = mkOutcome [json_dumps (plugin_actions p)] 0 None w.
Proof.
  intro Hread.
  destruct (after_read_params p stdin seekable w _ s Hread)
    as (Hout & Hemit & Hclosed & Hw).
  assert (Hopen : stdout_open s = true) by (unfold stdout_open; now rewrite Hclosed).
  split; rewrite run_main_stages, Hread; cbn [String.eqb Ascii.eqb Bool.eqb];
    rewrite finished_after_print by assumption; now rewrite Hout, Hw.
Qed.

(** [execute] always returns a response. *)
Lemma execute_returns p action params s :
  exists response s', plugin_execute p action params s = (inl response, s').
Proof.
  pose proof (never_exits_execute p action params s) as Hexit.
  destruct (plugin_execute p action params s) as [[response | [e | code]] s'] eqn:Hrun.
  - now exists response, s'.
  - exfalso. rewrite execute_dispatch, try_except_Exception in Hrun.
    destruct (match plugin_handler p action with
              | Some handler => handler params
              | None => raise ValueError ("Unknown action: " ++ action)
              end s) as [[a | [e' | code]] s1]; discriminate.
  - exfalso. now apply (Hexit code s').
Qed.

End Reader.

(** ** The file plugin *)

Lemma write_newlines_posix s : write_newlines s = s.
Proof.
  induction s as [|c rest IH]; cbn [write_newlines]; [reflexivity|].
  rewrite IH. destruct (Ascii.eqb_spec c LF) as [->|]; reflexivity.
Qed.

Lemma universal_newlines_without_cr s :
  contains_cr s = false -> universal_newlines s = s.
Proof.
  induction s as [|c rest IH]; cbn [contains_cr universal_newlines]; [reflexivity|].
  intros [Hc Hrest]%orb_false_iff. rewrite Hc, IH; auto.
Qed.

(** Storing a file changes nothing in the way to it. *)
Lemma walk_with_files f w cur names :
  match walk w cur names with
  | NoWay _ => True
  | found => walk (with_files f w) cur names = found
  end.
Proof.
  revert cur. induction names as [|name rest IH]; intro cur; cbn [walk]; [reflexivity|].
  change (unsearchable (with_files f w)) with (unsearchable w).
  destruct (bool_decide (key_of cur ∈ unsearchable w)); [exact I|].
  destruct ((name =? "") || (name =? ".")); [apply IH|].
  destruct (name =? ".."); [apply IH|].
  destruct (NAME_MAX <? utf8_length name)%nat; [exact I|].
  destruct rest as [|next rest']; [reflexivity|].
  change (is_directory (with_files f w) (child_of cur name))
    with (is_directory w (child_of cur name)).
  destruct (is_directory w (child_of cur name)); [apply IH|].
  now destruct (occupied w _).
Qed.

Lemma locate_with_files f w p parent name :
  locate w p = AtEntry parent name -> locate (with_files f w) p = AtEntry parent name.
Proof.
  unfold locate. destruct (p =? ""); [discriminate|].
  destruct (PATH_MAX <=? utf8_length p)%nat; [discriminate|].
  intro Hw. pose proof (walk_with_files f w (starts_at p) (split_sep p)) as Hsame.
  now rewrite Hw in Hsame.
Qed.

Lemma locate_to_create_entry w p parent name :
  locate_to_create w p = AtEntry parent name -> locate w p = AtEntry parent name.
Proof. unfold locate_to_create. now destruct (_ && _). Qed.

(** What a write that reports success has done: it was given a path that
    leads to an entry of a directory; where that entry is a device, the
    text went to the device; where it is a regular file, or nothing yet,
    the file now holds the text. *)
Lemma write_success P V s s' :
  FilePlugin.execute "write" (write_request P V) s = (inl success_response, s') ->
  P <> "" /\ has_nul P = false /\
  exists parent name,
    locate (proc_world s) P = AtEntry parent name /\
    match entry_at (proc_world s) (key_of (child_of parent name)) with
    | IsDirectory => False
    | IsDevice d => proc_world s' = proc_world s
    | IsFile _ | Nothing =>
        s' = with_world
               (with_files (<[key_of (child_of parent name) := write_newlines V]>
                              (files (proc_world s))) (proc_world s)) s
    end.
Proof.
  unfold FilePlugin.execute. rewrite try_except_Exception.
  cbn [String.eqb Ascii.eqb Bool.eqb].
  unfold FilePlugin._handle_write, write_request, py_get.
  cbn [dict_lookup String.eqb Ascii.eqb Bool.eqb].
  unfold bind at 1 2 3. cbn [ret truthy].
  destruct (String.eqb_spec P "") as [->|Hne]; cbn [negb].
  { cbn. discriminate. }
  unfold bind at 1. cbn [ret]. unfold bind at 1.
  unfold open_write.
  destruct (has_nul P) eqn:Hnul; [cbn; discriminate|].
  unfold bind at 1. cbn [get_world].
  destruct (locate_to_create (proc_world s) P) as [l | parent name | e] eqn:Hloc;
    [cbn; discriminate | | cbn; discriminate].
  apply locate_to_create_entry in Hloc.
  intro Hrun. split; [exact Hne|]. split; [reflexivity|].
  exists parent, name. split; [exact Hloc|].
  destruct (entry_at (proc_world s) (key_of (child_of parent name)))
    as [| d | stored |].
  - cbn in Hrun. discriminate.
  - destruct (dev_open_write d); [cbn in Hrun; discriminate|].
    unfold bind in Hrun. cbn [written_text ret] in Hrun.
    unfold device_write in Hrun.
    destruct (write_newlines V =? ""); [now injection Hrun as <-|].
    destruct (dev_write d) as [[|] | e]; cbn in Hrun;
      first [discriminate | now injection Hrun as <-].
  - destruct (bool_decide _); cbn in Hrun; [discriminate|].
    now injection Hrun as <-.
  - destruct (bool_decide _); cbn in Hrun; [discriminate|].
    now injection Hrun as <-.
Qed.

(** Reading a path that names a regular file the process may read returns
    what the file holds, with the newlines translated. *)
Lemma read_stored_file P stored s :
  P <> "" ->
  readable_text (proc_world s) P = Some stored ->
  FilePlugin.execute "read" (read_request P) s
  = (inl (VDict [("content", VStr (universal_newlines stored))]), s).
Proof.
  intros Hne Hfile.
  unfold FilePlugin.execute. rewrite try_except_Exception.
  cbn [String.eqb Ascii.eqb Bool.eqb].
  unfold FilePlugin._handle_read, read_request, py_get.
  cbn [dict_lookup String.eqb Ascii.eqb Bool.eqb].
  unfold bind at 1. cbn [ret truthy].
  apply String.eqb_neq in Hne. rewrite Hne. cbn [negb].
  unfold bind at 1. unfold open_read. unfold readable_text in Hfile.
  destruct (has_nul P); [discriminate|].
  unfold bind at 1. cbn [get_world].
  destruct (locate (proc_world s) P) as [l | parent name | e]; try discriminate.
  destruct (entry_at _ _) as [| d | text |]; try discriminate.
  destruct (bool_decide _); [discriminate|].
  now injection Hfile as ->.
Qed.

(** After a write that reported success, a path that names a regular file
    the process may read names the file that was written. *)
Lemma written_file_text P V s s' :
  FilePlugin.execute "write" (write_request P V) s = (inl success_response, s') ->
  is_Some (readable_text (proc_world s') P) ->
  readable_text (proc_world s') P = Some (write_newlines V).
Proof.
  intros (Hne & Hnul & parent & name & Hloc & Hentry)%write_success [text Htext].
  unfold readable_text in *. rewrite Hnul in *.
  unfold entry_at in Hentry.
  destruct (bool_decide (key_of (child_of parent name) ∈ dirs (proc_world s)))
    eqn:Hdir; [contradiction|].
  destruct (devices (proc_world s) !! key_of (child_of parent name)) as [d|] eqn:Hdev.
  - rewrite Hentry, Hloc in Htext. unfold entry_at in Htext.
    now rewrite Hdir, Hdev in Htext.
  - assert (Hs' : proc_world s' =
              with_files (<[key_of (child_of parent name) := write_newlines V]>
                            (files (proc_world s))) (proc_world s)).
    { destruct (files (proc_world s) !! _); now rewrite Hentry. }
    rewrite Hs' in *. rewrite (locate_with_files _ _ _ _ _ Hloc) in *.
    unfold entry_at in *. cbn [dirs devices files unreadable with_files] in *.
    rewrite Hdir, Hdev, lookup_insert_eq in *.
    destruct (bool_decide (_ ∈ unreadable _)); [discriminate | reflexivity].
Qed.

(** What the read after a successful write returns, whatever the
    content. *)
Lemma write_then_read P V s s' s2 :
  FilePlugin.execute "write" (write_request P V) s = (inl success_response, s') ->
  proc_world s2 = proc_world s' ->
  is_Some (readable_text (proc_world s') P) ->
  FilePlugin.execute "read" (read_request P) s2
  = (inl (VDict [("content", VStr (universal_newlines V))]), s2).
Proof.
  intros Hwrite Hworld Hfile.
  pose proof (written_file_text P V s s' Hwrite Hfile) as Htext.
  rewrite write_newlines_posix in Htext.
  apply read_stored_file; [|now rewrite Hworld].
  now apply write_success in Hwrite.
Qed.




(** It fails as well where the path names something else than a regular
    file: a write to [/dev/null] succeeds, and the read returns the empty
    string. *)
Lemma write_then_read_device_counterexample :
  let s := initial "" false dev_world in
  FilePlugin.execute "write" (write_request "/dev/null" "kept") s
  = (inl success_response, s) /\
  FilePlugin.execute "read" (read_request "/dev/null") s
  = (inl (VDict [("content", VStr "")]), s).
Proof. split; reflexivity. Qed.

(** C10. For the read and the write action of the file plugin, a params
    object whose "path" is the empty string and one without "path" get the
    same response, [{"error": "path parameter is required"}], and the
    process state, the file system included, is left as it was. *)
Theorem empty_path_is_missing_path action entries s :
  action = "read" \/ action = "write" ->
  dict_lookup "path" entries = None \/ dict_lookup "path" entries = Some (VStr "") ->
  FilePlugin.execute action (VDict entries) s
  = (inl (error_response "path parameter is required"), s).
Proof.
  intros Haction Hpath.
  unfold FilePlugin.execute. rewrite try_except_Exception.
  destruct Haction as [-> | ->]; cbn [String.eqb Ascii.eqb Bool.eqb];
    unfold FilePlugin._handle_read, FilePlugin._handle_write, py_get;
    destruct Hpath as [-> | ->]; reflexivity.
Qed.

Lemma empty_path_is_missing_path_witness :
  let s := initial "" false empty_world in
  FilePlugin.execute "write" (VDict [("content", VStr "text"); ("path", VStr "")]) s
  = (inl (error_response "path parameter is required"), s) /\
  FilePlugin.execute "write" (VDict [("content", VStr "text")]) s
  = (inl (error_response "path parameter is required"), s).
Proof.
  intro s. split.
  - apply (empty_path_is_missing_path "write"); [right | right]; reflexivity.
  - apply (empty_path_is_missing_path "write"); [right | left]; reflexivity.
Defined.

(** ** Required parameters *)

Section Required.
Context `{Library}.

(** Each parameter the catalogs declare required is demanded by its
    handler, the content of the file plugin's write action apart. *)
Lemma missing_required_parameter_error p action name entries s :
  In name (required_inputs (plugin_actions p) action) ->
  (p, action, name) <> (File, "write", "content") ->
  dict_lookup name entries = None ->
  plugin_execute p action (VDict entries) s
  = (inl (error_response (name ++ " parameter is required")), s).
Proof.
  intros Hin Hnot Hmissing.
  destruct p; cbn [plugin_actions plugin_execute] in *;
    unfold required_inputs in Hin;
    cbn [FilePlugin.get_actions HttpPlugin.get_actions CalculatorPlugin.get_actions
         dict_entries dict_lookup] in Hin;
    repeat match type of Hin with
           | context [?a =? action] =>
               destruct (String.eqb_spec a action) as [<- | _]
           end;
    cbn in Hin; repeat destruct Hin as [<- | Hin]; try contradiction;
    try congruence;
    unfold FilePlugin.execute, HttpPlugin.execute, CalculatorPlugin.execute;
    rewrite try_except_Exception; cbn [String.eqb Ascii.eqb Bool.eqb];
    unfold FilePlugin._handle_read, FilePlugin._handle_write,
           HttpPlugin._handle_get, HttpPlugin._handle_post,
           CalculatorPlugin._handle_calculate, py_get;
    rewrite Hmissing; reflexivity.
Qed.

End Required.

(** C6. The catalog of the file plugin declares the parameter "content" of
    the write action required, and the write action invoked without it
    creates an empty file and reports success: its response has no "error"
    field, where the specification has one that names "content". *)
Theorem write_without_content_succeeds :
  let s := initial "" false empty_world in
  let response := FilePlugin.execute "write" (VDict [("path", VStr "out.txt")]) s in
  In "content" (required_inputs FilePlugin.get_actions "write") /\
  fst response = inl success_response /\
  files (proc_world (snd response)) !! "out.txt" = Some "".
Proof.
  cbn zeta. split; [right; left; reflexivity|]. split; reflexivity.
Qed.

(** ** The calculator *)

Section Calculator.
Context `{Library}.

Lemma stateless_py_all p items :
  (forall c, stateless (p c)) -> stateless (CalculatorPlugin.py_all p items).
Proof.
  intro Hp. induction items as [|c rest IH]; cbn [CalculatorPlugin.py_all]; frame.
Qed.

Lemma stateless_handle_calculate params :
  stateless (CalculatorPlugin._handle_calculate params).
Proof.
  unfold CalculatorPlugin._handle_calculate. frame.
  - unfold CalculatorPlugin.py_iter. frame.
  - apply stateless_py_all. intro c. unfold CalculatorPlugin.in_allowed_chars. frame.
Qed.

Lemma stateless_calculator_execute action params :
  stateless (CalculatorPlugin.execute action params).
Proof.
  unfold CalculatorPlugin.execute. apply stateless_try; [|intro e; frame].
  destruct (action =? "calculate"); [apply stateless_handle_calculate | frame].
Qed.

(** The read action of the file plugin is not of that kind: its response
    depends on the file system it finds. *)
Lemma file_read_is_not_stateless :
  ~ stateless (FilePlugin.execute "read" (read_request "notes.txt")).
Proof.
  intros [r Hr].
  pose proof (Hr (initial "" false empty_world)) as Hempty.
  pose proof (Hr (initial "" false (mkWorld (<["notes.txt" := "text"]> ∅) ∅))) as Hfile.
  rewrite (read_stored_file "notes.txt" "text") in Hfile;
    [|discriminate|reflexivity].
  injection Hfile as <-. discriminate Hempty.
Qed.

(** C9. The calculate action is a function of its params alone: whatever
    the state of the process and of the file system, the same expression
    and precision give the same response and leave the state as it was; and
    two calculator processes started with the same arguments and the same
    standard input print the same and exit alike, whatever the file system
    each finds and whether or not its standard input can seek. *)
Theorem calculate_is_deterministic :
  (forall params s1 s2,
     fst (CalculatorPlugin.execute "calculate" params s1)
     = fst (CalculatorPlugin.execute "calculate" params s2) /\
     snd (CalculatorPlugin.execute "calculate" params s1) = s1) /\
  (forall prog rest stdin seekable1 seekable2 w1 w2,
     let run1 := run_process CalculatorPlugin.main (prog :: "calculate" :: rest)
                   stdin seekable1 w1 in
     let run2 := run_process CalculatorPlugin.main (prog :: "calculate" :: rest)
                   stdin seekable2 w2 in
     out_stdout run1 = out_stdout run2 /\
     out_code run1 = out_code run2 /\
     out_uncaught run1 = out_uncaught run2 /\
     out_world run1 = w1 /\ out_world run2 = w2).
Proof.
  split.
  - intros params s1 s2.
    destruct (stateless_calculator_execute "calculate" params) as [r Hr].
    rewrite !Hr. split; reflexivity.
  - intros prog rest stdin seekable1 seekable2 w1 w2 run1 run2.
    subst run1 run2.
    change CalculatorPlugin.main with (plugin_main Calculator).
    rewrite !(run_main_stages Calculator).
    cbn [plugin_read_params plugin_execute String.eqb Ascii.eqb Bool.eqb].
    rewrite !calculator_read_params.
    destruct (lenient_params stdin) as [params | [e | code]];
      [|repeat split; reflexivity..].
    destruct (stateless_calculator_execute "calculate" params) as [r Hr].
    rewrite !Hr.
    destruct r as [response | [e | code]]; repeat split; reflexivity.
Qed.

End Calculator.

(** * Further properties of the plugins *)

(** ** What a statement touches *)

Lemma keeps_world_raise {A} c msg : keeps_world (@raise A c msg).
Proof. intro s. reflexivity. Qed.

Lemma keeps_world_get_world : keeps_world get_world.
Proof. intro s. reflexivity. Qed.

Lemma keeps_world_py_get obj key default : keeps_world (py_get obj key default).
Proof. intro s. destruct obj; reflexivity. Qed.

#[local] Hint Resolve keeps_world_get_world keeps_world_py_get : frame.
#[local] Hint Extern 1 (keeps_world (raise _ _)) => apply keeps_world_raise : frame.

(** Opening a file to read it changes nothing in the file system, whatever
    the path names. *)
Lemma keeps_world_open_read path : keeps_world (open_read path).
Proof. unfold open_read. frame. Qed.

#[local] Hint Resolve keeps_world_open_read : frame.

Section ExecutorFootprint.
Context `{Library}.

Lemma keeps_world_py_all p items :
  (forall c, keeps_world (p c)) -> keeps_world (CalculatorPlugin.py_all p items).
Proof.
  intro Hp. induction items as [|c rest IH]; cbn [CalculatorPlugin.py_all]; frame.
Qed.

(** Nothing but the write action of the file plugin changes the file
    system. *)
Lemma keeps_world_execute p action params :
  (p = File -> action <> "write") ->
  keeps_world (plugin_execute p action params).
Proof.
  intro Hnot.
  destruct p; cbn [plugin_execute];
    unfold FilePlugin.execute, FilePlugin._handle_read,
           HttpPlugin.execute, HttpPlugin._handle_get, HttpPlugin._handle_post,
           CalculatorPlugin.execute, CalculatorPlugin._handle_calculate.
  - apply keeps_world_try; [|intro; frame].
    destruct (action =? "read"); [frame|].
    destruct (String.eqb_spec action "write") as [-> | _]; [|frame].
    now destruct Hnot.
  - frame.
  - frame.
    + unfold CalculatorPlugin.py_iter. frame.
    + apply keeps_world_py_all. intro c. unfold CalculatorPlugin.in_allowed_chars.
      frame.
Qed.

(** The handlers of the HTTP plugin and of the calculator, and so their
    [execute], neither read nor change the state of the process. *)
Lemma stateless_execute p action params :
  p <> File -> stateless (plugin_execute p action params).
Proof.
  intro Hp. rewrite execute_dispatch.
  destruct (plugin_handler p action) as [handler|] eqn:Hh; [|frame].
  apply stateless_try; [|intro e; frame].
  now apply (stateless_http_calculator_handler p action handler).
Qed.

End ExecutorFootprint.

(** ** The executor and the process *)

Section Process.
Context `{Library}.


(** X2. A process leaves the file system as it found it, however it ends,
    unless it is the file plugin asked to "write". *)
Theorem only_write_changes_files p argv stdin seekable w :
  ~ (p = File /\ nth 1 argv "" = "write") ->
  out_world (run_process (plugin_main p) argv stdin seekable w) = w.
Proof.
  intro Hnot.
  destruct argv as [|prog [|action rest]];
    [now rewrite run_main_without_action by (cbn; lia)..|].
  cbn [nth] in Hnot.
  pose proof (keeps_world_read_params p (initial stdin seekable w)) as Hw.
  rewrite run_main_stages. unfold finished, after_print, print.
  destruct (plugin_read_params p (initial stdin seekable w))
    as [[params | [e | code]] s]; cbn [snd initial mkProcess proc_world] in Hw;
    cbn [out_world snd proc_world]; try exact Hw.
  destruct (action =? "metadata"); [exact Hw|].
  destruct (action =? "actions"); [exact Hw|].
  assert (Hkeep : keeps_world (plugin_execute p action params)).
  { apply keeps_world_execute. intros -> ->. now apply Hnot. }
  specialize (Hkeep s).
  destruct (plugin_execute p action params s) as [[response | [e | code]] s'];
    cbn [snd] in Hkeep; cbn [out_world snd proc_world]; congruence.
Qed.

(** X3. Started without an action, every plugin prints the one line
    [{"error": "action required as first argument"}] and calls
    [sys.exit(1)], and does nothing else: standard input is not read, and
    the state of the process is the one it started in but for the printed
    line; the host receives that line and the exit code 1. *)
Theorem missing_action_is_protocol_failure p argv s :
  (length argv < 2)%nat ->
  let line := json_dumps (error_response "action required as first argument") in
  plugin_main p argv s = (inr (SystemExit 1), after_print line s) /\
  proc_stdin (snd (plugin_main p argv s)) = proc_stdin s /\
  (forall stdin seekable w,
     run_process (plugin_main p) argv stdin seekable w = mkOutcome [line] 1 None w).
Proof.
  intros Hlen line. apply Nat.ltb_lt in Hlen.
  assert (Hmain : forall s0, plugin_main p argv s0 = (inr (SystemExit 1), after_print line s0)).
  { intro s0. destruct p; cbn [plugin_main];
      unfold FilePlugin.main, HttpPlugin.main, CalculatorPlugin.main;
      rewrite Hlen; reflexivity. }
  split; [apply Hmain|]. split; [now rewrite Hmain|].
  intros stdin seekable w. unfold run_process. now rewrite Hmain.
Qed.

(** X4. The calculator prints exactly one line in every run, exits with
    code 1 when the action is missing and with code 0 otherwise, and leaves
    the file system alone, on every standard input that is blank, that
    [json.loads] decodes or that it rejects with a [JSONDecodeError]. *)
Theorem calculator_always_one_line argv stdin seekable w :
  (forall e, json_loads (strip stdin) = Raise e -> isinstance e JSONDecodeError = true) ->
  exists response,
    run_process CalculatorPlugin.main argv stdin seekable w
    = mkOutcome [json_dumps response] (if (length argv <? 2)%nat then 1 else 0) None w.
Proof.
  intro Hloads.
  change CalculatorPlugin.main with (plugin_main Calculator).
  destruct argv as [|prog [|action rest]];
    [rewrite run_main_without_action by (cbn; lia); now eexists..|].
  cbn [length Nat.ltb Nat.leb].
  assert (Hparams : exists params, lenient_params stdin = inl params).
  { unfold lenient_params. destruct (strip stdin =? ""); [now eexists|].
    destruct (json_loads (strip stdin)) as [params | e] eqn:Hl; [now eexists|].
    rewrite (Hloads e eq_refl). now eexists. }
  destruct Hparams as [params Hparams].
  rewrite run_main_stages. cbn [plugin_read_params plugin_execute].
  rewrite calculator_read_params, Hparams.
  destruct (action =? "metadata"); [now eexists|].
  destruct (action =? "actions"); [now eexists|].
  destruct (execute_returns Calculator action params
              (mkProcess (mkStdin stdin "" seekable) [] w)) as (response & s' & Hrun).
  destruct (stateless_execute Calculator action params) as [r Hr]; [discriminate|].
  cbn [plugin_execute] in Hrun, Hr. rewrite Hr in Hrun |- *.
  injection Hrun as -> _. now exists response.
Qed.

(** X5. For the file plugin and the calculator, "metadata" and "actions"
    print the plugin's metadata and its catalog and exit with code 0 on
    every standard input that is blank, that [json.loads] decodes or that
    it rejects with a [JSONDecodeError], and leave the file system
    alone. *)
Theorem file_calculator_introspection p prog rest stdin seekable w :
  p <> Http ->
  (forall e, json_loads (strip stdin) = Raise e -> isinstance e JSONDecodeError = true) ->
  run_process (plugin_main p) (prog :: "metadata" :: rest) stdin seekable w
  = mkOutcome [json_dumps (plugin_metadata p)] 0 None w /\
  run_process (plugin_main p) (prog :: "actions" :: rest) stdin seekable w
  = mkOutcome [json_dumps (plugin_actions p)] 0 None w.
Proof.
  intros Hp Hloads.
  assert (Hparams : exists params, lenient_params stdin = inl params).
  { unfold lenient_params. destruct (strip stdin =? ""); [now eexists|].
    destruct (json_loads (strip stdin)) as [params | e] eqn:Hl; [now eexists|].
    rewrite (Hloads e eq_refl). now eexists. }
  destruct Hparams as [params Hparams].
  apply (introspection_ignores_params p prog rest stdin seekable w params
           (mkProcess (mkStdin stdin "" seekable) [] w)).
  destruct p; [|contradiction|]; cbn [plugin_read_params].
  - now rewrite file_read_params, Hparams.
  - now rewrite calculator_read_params, Hparams.
Qed.

(** Outside the read and the write action of the file plugin, [execute]
    neither reads nor changes the state of the process. *)
Lemma stateless_execute_outside_files p action params :
  (p = File -> action <> "read" /\ action <> "write") ->
  stateless (plugin_execute p action params).
Proof.
  intro Hnot. destruct p; [|now apply stateless_execute..].
  destruct (Hnot eq_refl) as [Hread Hwrite].
  apply String.eqb_neq in Hread, Hwrite.
  cbn [plugin_execute]. unfold FilePlugin.execute.
  rewrite Hread, Hwrite. apply stateless_try; [|intro e]; frame.
Qed.

(** X6. For the calculator, and for the file plugin outside its read and
    write actions, standard input matters through the params it decodes to
    and through nothing else: two runs with the same arguments on the same
    file system whose inputs decode alike, a malformed document and a blank
    one for instance, end alike, whether or not the inputs can seek. *)
Theorem stdin_matters_through_params_only p argv stdin1 stdin2 seekable1 seekable2 w :
  p <> Http ->
  (p = File -> nth 1 argv "" <> "read" /\ nth 1 argv "" <> "write") ->
  lenient_params stdin1 = lenient_params stdin2 ->
  run_process (plugin_main p) argv stdin1 seekable1 w
  = run_process (plugin_main p) argv stdin2 seekable2 w.
Proof.
  intros Hp Hfile Heq.
  destruct argv as [|prog [|action rest]];
    [now rewrite !run_main_without_action by (cbn; lia)..|].
  cbn [nth] in Hfile.
  rewrite !run_main_stages.
  assert (Hread : forall stdin seekable,
            plugin_read_params p (initial stdin seekable w)
            = (lenient_params stdin, mkProcess (mkStdin stdin "" seekable) [] w)).
  { intros stdin seekable. destruct p; [|contradiction|].
    - apply file_read_params.
    - apply calculator_read_params. }
  rewrite !Hread, Heq.
  destruct (lenient_params stdin2) as [params | [e | code]]; try reflexivity.
  destruct (action =? "metadata"); [reflexivity|].
  destruct (action =? "actions"); [reflexivity|].
  destruct (stateless_execute_outside_files p action params Hfile) as [r Hr].
  rewrite !Hr. destruct r as [response | [e | code]]; reflexivity.
Qed.


End Process.

Lemma example_loads_only_decode_errors text e :
  json_loads text = Raise e -> isinstance e JSONDecodeError = true.
Proof.
  cbn. destruct (text =? "{}"); [discriminate|]. now intros [= <-].
Qed.

Lemma only_write_changes_files_witness :
  out_world (run_process FilePlugin.main ["file-plugin.py"; "read"] "{}" false
               (mkWorld (<["notes.txt" := "text"]> ∅) ∅))
  = mkWorld (<["notes.txt" := "text"]> ∅) ∅.
Proof.
  apply (only_write_changes_files File). cbn. intros [_ Heq]. discriminate Heq.
Defined.

Lemma missing_action_is_protocol_failure_witness :
  let s := initial "{}" false empty_world in
  let line := json_dumps (error_response "action required as first argument") in
  HttpPlugin.main ["http-plugin.py"] s = (inr (SystemExit 1), after_print line s) /\
  proc_stdin (snd (HttpPlugin.main ["http-plugin.py"] s)) = proc_stdin s /\
  (forall stdin seekable w,
     run_process HttpPlugin.main ["http-plugin.py"] stdin seekable w
     = mkOutcome [line] 1 None w).
Proof.
  apply (missing_action_is_protocol_failure Http ["http-plugin.py"]
           (initial "{}" false empty_world)).
  cbn. lia.
Defined.

Lemma calculator_always_one_line_witness :
  exists response,
    run_process CalculatorPlugin.main ["test-calc.py"; "calculate"] "not json" false
      empty_world
    = mkOutcome [json_dumps response] 0 None empty_world.
Proof.
  apply (calculator_always_one_line ["test-calc.py"; "calculate"] "not json" false
           empty_world).
  intro e. apply example_loads_only_decode_errors.
Defined.

Lemma file_calculator_introspection_witness :
  run_process FilePlugin.main ["file-plugin.py"; "metadata"] "not json" false empty_world
  = mkOutcome [json_dumps FilePlugin.get_metadata] 0 None empty_world /\
  run_process FilePlugin.main ["file-plugin.py"; "actions"] "not json" false empty_world
  = mkOutcome [json_dumps FilePlugin.get_actions] 0 None empty_world.
Proof.
  apply (file_calculator_introspection File "file-plugin.py" [] "not json" false
           empty_world).
  - discriminate.
  - intro e. apply example_loads_only_decode_errors.
Defined.

Lemma stdin_matters_through_params_only_witness :
  run_process CalculatorPlugin.main ["test-calc.py"; "calculate"] "not json" false
    empty_world
  = run_process CalculatorPlugin.main ["test-calc.py"; "calculate"] "  " true
      empty_world.
Proof.
  apply (stdin_matters_through_params_only Calculator);
    [discriminate | discriminate | reflexivity].
Defined.


(** ** The handlers and their parameters *)

Section Parameters.
Context `{Library}.

(** X8. A params document that is valid JSON but not an object (a list, a
    string, a number, [true], [null]) makes every known action of every
    plugin answer [{"error": "'<type>' object has no attribute 'get'"}],
    with nothing touched. *)
Theorem non_object_params_error p action handler params s :
  plugin_handler p action = Some handler ->
  (forall entries, params <> VDict entries) ->
  plugin_execute p action params s
  = (inl (error_response ("'" ++ type_name params ++ "' object has no attribute 'get'")), s).
Proof.
  intros Hh Hnot.
  rewrite execute_dispatch, Hh, try_except_Exception.
  destruct p; cbn [plugin_handler] in Hh;
    repeat match type of Hh with
           | context [if ?b then _ else _] => destruct b
           end;
    try discriminate; injection Hh as <-;
    destruct params; try reflexivity; now destruct (Hnot entries).
Qed.

(** X9. A required parameter that is present with a falsy value (the empty
    string, 0, [false], [null], an empty list or object) is answered like a
    missing one, ["<name> parameter is required"], with nothing touched;
    the content of the file plugin's write action apart, which is not
    checked. *)
Theorem falsy_required_parameter_is_missing p action name entries v s :
  In name (required_inputs (plugin_actions p) action) ->
  (p, action, name) <> (File, "write", "content") ->
  dict_lookup name entries = Some v ->
  truthy v = false ->
  plugin_execute p action (VDict entries) s
  = (inl (error_response (name ++ " parameter is required")), s).
Proof.
  intros Hin Hnot Hpresent Hfalsy.
  destruct p; cbn [plugin_actions plugin_execute] in *;
    unfold required_inputs in Hin;
    cbn [FilePlugin.get_actions HttpPlugin.get_actions CalculatorPlugin.get_actions
         dict_entries dict_lookup] in Hin;
    repeat match type of Hin with
           | context [?a =? action] =>
               destruct (String.eqb_spec a action) as [<- | _]
           end;
    cbn in Hin; repeat destruct Hin as [<- | Hin]; try contradiction;
    try congruence;
    unfold FilePlugin.execute, HttpPlugin.execute, CalculatorPlugin.execute;
    rewrite try_except_Exception; cbn [String.eqb Ascii.eqb Bool.eqb];
    unfold FilePlugin._handle_read, FilePlugin._handle_write,
           HttpPlugin._handle_get, HttpPlugin._handle_post,
           CalculatorPlugin._handle_calculate, py_get, bind;
    rewrite Hpresent; cbn [ret]; rewrite Hfalsy; reflexivity.
Qed.

Lemma dict_lookup_app key entries name v :
  dict_lookup key (entries ++ [(name, v)])
  = match dict_lookup key entries with
    | Some found => Some found
    | None => if name =? key then Some v else None
    end.
Proof.
  induction entries as [|[k' v'] rest IH]; cbn [app dict_lookup]; [reflexivity|].
  now destruct (k' =? key).
Qed.

(** X10. The defaults the catalogs declare are the ones the handlers
    apply: where a parameter with a declared default is absent, adding it
    with that default changes nothing in what the action does or
    answers. *)
Theorem declared_default_is_applied p action name default entries s :
  declared_default (plugin_actions p) action name = Some default ->
  dict_lookup name entries = None ->
  plugin_execute p action (VDict (entries ++ [(name, default)])) s
  = plugin_execute p action (VDict entries) s.
Proof.
  intros Hdefault Habsent.
  destruct p; cbn [plugin_actions plugin_execute] in *;
    unfold declared_default in Hdefault;
    cbn [FilePlugin.get_actions HttpPlugin.get_actions CalculatorPlugin.get_actions
         dict_entries dict_lookup] in Hdefault;
    repeat (cbn [dict_entries dict_lookup param_spec param_spec_default] in Hdefault;
            match type of Hdefault with
            | context [?a =? action] =>
                destruct (String.eqb_spec a action) as [<- | _]
            | context [?a =? name] =>
                destruct (String.eqb_spec a name) as [<- | _]
            | context [?a =? ?b] =>
                let v := eval vm_compute in (a =? b) in
                change (a =? b) with v in Hdefault
            end);
    try discriminate; injection Hdefault as <-;
    unfold FilePlugin.execute, HttpPlugin.execute, CalculatorPlugin.execute;
    rewrite !try_except_Exception; cbn [String.eqb Ascii.eqb Bool.eqb];
    unfold FilePlugin._handle_write,
           HttpPlugin._handle_get, HttpPlugin._handle_post,
           CalculatorPlugin._handle_calculate, py_get;
    rewrite !dict_lookup_app, Habsent; cbn [String.eqb Ascii.eqb Bool.eqb];
    repeat match goal with
           | |- context [dict_lookup ?k entries] => destruct (dict_lookup k entries)
           end; reflexivity.
Qed.

End Parameters.

Lemma non_object_params_error_witness :
  let s := initial "" false empty_world in
  CalculatorPlugin.execute "calculate" (VList [VInt 1; VInt 2]) s
  = (inl (error_response "'list' object has no attribute 'get'"), s).
Proof.
  intro s.
  apply (non_object_params_error Calculator "calculate"
           CalculatorPlugin._handle_calculate (VList [VInt 1; VInt 2]) s).
  - reflexivity.
  - discriminate.
Defined.

Lemma falsy_required_parameter_is_missing_witness :
  let s := initial "" false empty_world in
  HttpPlugin.execute "post" (VDict [("body", VStr "data"); ("url", VInt 0)]) s
  = (inl (error_response "url parameter is required"), s).
Proof.
  intro s.
  apply (falsy_required_parameter_is_missing Http "post" "url"
           [("body", VStr "data"); ("url", VInt 0)] (VInt 0) s).
  - left. reflexivity.
  - discriminate.
  - reflexivity.
  - reflexivity.
Defined.

Lemma declared_default_is_applied_witness :
  let s := initial "" false empty_world in
  CalculatorPlugin.execute "calculate"
    (VDict ([("expression", VStr "2+2")] ++ [("precision", VInt 2)])) s
  = CalculatorPlugin.execute "calculate" (VDict [("expression", VStr "2+2")]) s.
Proof.
  intro s.
  apply (declared_default_is_applied Calculator "calculate" "precision" (VInt 2)
           [("expression", VStr "2+2")] s); reflexivity.
Defined.

(** ** The file plugin, further *)

(** [os.makedirs] comes to an end: each call goes on with a shorter
    name, so the result does not depend on the fuel once there is more of
    it than the name is long. *)
Lemma upto_last_sep_empty p : upto_last_sep p = "" <-> has_sep p = false.
Proof.
  induction p as [|c rest IH]; cbn [upto_last_sep has_sep]; [easy|].
  destruct (upto_last_sep rest) as [|c' h] eqn:Hh.
  - cbn [String.eqb negb orb]. destruct (is_sep c); cbn [orb]; [easy|].
    split; [intros _; now apply IH | reflexivity].
  - cbn [String.eqb negb orb]. split; [discriminate|].
    intros [_ Hrest]%orb_false_iff. now apply IH in Hrest.
Qed.

Lemma after_last_sep_without_sep p : has_sep p = false -> after_last_sep p = p.
Proof. destruct p as [|c rest]; [reflexivity|]. cbn [after_last_sep]. now intros ->. Qed.

Lemma split_lengths p :
  (String.length (upto_last_sep p) + String.length (after_last_sep p)
   = String.length p)%nat.
Proof.
  induction p as [|c rest IH]; [reflexivity|].
  cbn [upto_last_sep after_last_sep].
  destruct (has_sep rest) eqn:Hrest.
  - assert (Hh : upto_last_sep rest <> "").
    { intros Hh%upto_last_sep_empty. congruence. }
    apply String.eqb_neq in Hh. rewrite Hh. cbn [negb orb has_sep].
    rewrite Hrest, orb_true_r. cbn [String.length]. lia.
  - pose proof (proj2 (upto_last_sep_empty rest) Hrest) as Hh. rewrite Hh in *.
    cbn [String.eqb negb orb has_sep]. rewrite Hrest, orb_false_r.
    destruct (is_sep c); cbn [String.length] in *.
    + rewrite (after_last_sep_without_sep rest Hrest). lia.
    + lia.
Qed.

Lemma rstrip_sep_length s : (String.length (rstrip_sep s) <= String.length s)%nat.
Proof.
  induction s as [|c rest IH]; [reflexivity|]. cbn [rstrip_sep].
  destruct (_ && _); cbn [String.length]; lia.
Qed.

Lemma posix_dirname_length p :
  (String.length (posix_dirname p) + String.length (after_last_sep p)
   <= String.length p)%nat.
Proof.
  unfold posix_dirname. pose proof (split_lengths p).
  pose proof (rstrip_sep_length (upto_last_sep p)).
  destruct (_ && _); lia.
Qed.

Lemma makedirs_fuel fuel1 : forall fuel2 name w,
  (String.length name < fuel1)%nat -> (String.length name < fuel2)%nat ->
  makedirs fuel1 name w = makedirs fuel2 name w.
Proof.
  induction fuel1 as [|fuel1 IH]; intros fuel2 name w H1 H2; [lia|].
  destruct fuel2 as [|fuel2]; [lia|].
  cbn [makedirs]. unfold posix_split.
  pose proof (posix_dirname_length name) as Hname.
  pose proof (posix_dirname_length (posix_dirname name)) as Hhead.
  destruct (after_last_sep name =? "") eqn:Htail.
  - destruct (_ && _) eqn:Hgo; [|reflexivity].
    apply andb_prop in Hgo as [[_ Hne]%andb_prop _].
    apply negb_true_iff, String.eqb_neq in Hne.
    assert (0 < String.length (after_last_sep (posix_dirname name)))%nat.
    { destruct (after_last_sep (posix_dirname name)); [congruence | cbn; lia]. }
    rewrite (IH fuel2) by lia. reflexivity.
  - destruct (_ && _) eqn:Hgo; [|reflexivity].
    apply String.eqb_neq in Htail.
    assert (0 < String.length (after_last_sep name))%nat.
    { destruct (after_last_sep name); [congruence | cbn; lia]. }
    rewrite (IH fuel2) by lia. reflexivity.
Qed.

(** A write with [create_dirs] makes the directories that are missing on
    the way, and one that runs into a regular file on the way fails with
    the error of [os.mkdir]. *)
Lemma create_dirs_examples :
  let request := VDict [("path", VStr "a/b/c.txt"); ("content", VStr "x");
                        ("create_dirs", VBool true)] in
  let s := initial "" false empty_world in
  let blocked := initial "" false (mkWorld (<["a" := "a file"]> ∅) ∅) in
  FilePlugin.execute "write" request s
  = (inl success_response,
     with_world (mkWorld (<["a/b/c.txt" := "x"]> ∅) ({["a"]} ∪ {["a/b"]})) s) /\
  FilePlugin.execute "write" request blocked
  = (inl (error_response "[Errno 20] Not a directory: 'a/b'"), blocked).
Proof. split; vm_compute; reflexivity. Qed.

(** A write to the path 1 writes to descriptor 1 of the process, standard
    output, and closes it: the content reaches the host, the response [main]
    prints afterwards does not, and the exit code is 120. *)
Lemma write_to_descriptor_one :
  let s := initial "" false empty_world in
  let s' := Process_of (proc_stdin s) [] empty_world ["hello"] [1%Z] in
  FilePlugin.execute "write" (VDict [("path", VInt 1); ("content", VStr "hello")]) s
  = (inl success_response, s') /\
  finished 0 None (after_print (json_dumps success_response) s')
  = mkOutcome ["hello"] 120 None empty_world.
Proof. split; reflexivity. Qed.



Lemma posix_dirname_without_sep P : has_sep P = false -> posix_dirname P = "".
Proof.
  intro Hsep. unfold posix_dirname.
  assert (Hhead : upto_last_sep P = "").
  { induction P as [|c rest IH]; [reflexivity|].
    cbn [has_sep] in Hsep. apply orb_false_iff in Hsep as [Hc Hrest].
    cbn [upto_last_sep]. now rewrite (IH Hrest), Hc. }
  now rewrite Hhead.
Qed.

(** X12. A write with [create_dirs] set to a path that has no directory
    part, a bare file name, fails: [os.makedirs] is handed the empty string
    and raises [FileNotFoundError], and nothing is written. *)
Theorem create_dirs_needs_a_directory entries P flag s :
  dict_lookup "path" entries = Some (VStr P) ->
  P <> "" -> has_sep P = false ->
  dict_lookup "create_dirs" entries = Some flag -> truthy flag = true ->
  FilePlugin.execute "write" (VDict entries) s
  = (inl (error_response "[Errno 2] No such file or directory: ''"), s).
Proof.
  intros Hpath Hne Hsep Hflag Htruthy.
  unfold FilePlugin.execute. rewrite try_except_Exception.
  cbn [String.eqb Ascii.eqb Bool.eqb].
  unfold FilePlugin._handle_write, py_get, bind.
  rewrite Hpath, Hflag. cbn [ret truthy].
  apply String.eqb_neq in Hne. rewrite Hne, Htruthy. cbn [negb].
  cbn [os_path_dirname ret]. rewrite (posix_dirname_without_sep P Hsep).
  reflexivity.
Qed.

Lemma create_dirs_needs_a_directory_witness :
  let s := initial "" false empty_world in
  FilePlugin.execute "write"
    (VDict [("path", VStr "notes.txt"); ("content", VStr "text");
            ("create_dirs", VBool true)]) s
  = (inl (error_response "[Errno 2] No such file or directory: ''"), s).
Proof.
  intro s.
  apply (create_dirs_needs_a_directory _ "notes.txt" (VBool true) s);
    first [reflexivity | discriminate].
Defined.

Lemma universal_newlines_has_no_cr s : contains_cr (universal_newlines s) = false.
Proof.
  remember (String.length s) as n eqn:Hn.
  assert (Hle : (String.length s <= n)%nat) by lia. clear Hn.
  revert s Hle. induction n as [|n IH]; intros [|c rest] Hle;
    cbn [String.length] in Hle; try reflexivity; try lia.
  cbn [universal_newlines].
  destruct (Ascii.eqb c CR) eqn:Hc; cbn [contains_cr].
  - destruct rest as [|c' rest']; [reflexivity|].
    cbn [String.length] in Hle. cbn [Ascii.eqb Bool.eqb LF CR orb].
    destruct (Ascii.eqb c' LF); apply IH; cbn [String.length]; lia.
  - rewrite Hc. apply IH. lia.
Qed.

Lemma device_read_has_no_cr d s content s' :
  device_read d s = (inl content, s') -> contains_cr content = false.
Proof.
  unfold device_read.
  destruct (dev_read d (proc_stdin s)) as [[data | e] i]; [|discriminate].
  intros [= <- _]. apply universal_newlines_has_no_cr.
Qed.

Lemma descriptor_read_has_no_cr n s content s' :
  with_descriptor n device_read s = (inl content, s') -> contains_cr content = false.
Proof.
  unfold with_descriptor.
  destruct (_ || _); [discriminate|]. destruct (n <? 0)%Z; [discriminate|].
  destruct (existsb _ _); [discriminate|].
  destruct (fd_device _ _) as [d|]; [|discriminate].
  unfold finally. destruct (device_read d s) as [[text | r] s1] eqn:Hread; [|discriminate].
  intros [= <- _]. exact (device_read_has_no_cr d s text s1 Hread).
Qed.

Lemma open_read_has_no_cr path s content s' :
  open_read path s = (inl content, s') -> contains_cr content = false.
Proof.
  destruct path as [| b | n | f | p | items | entries]; cbn [open_read];
    try discriminate; try apply descriptor_read_has_no_cr.
  destruct (has_nul p); [discriminate|].
  unfold bind. cbn [get_world].
  destruct (locate _ _) as [l | parent name | e]; try discriminate.
  destruct (entry_at _ _) as [| d | stored |]; try discriminate.
  - apply device_read_has_no_cr.
  - destruct (bool_decide _); [discriminate|].
    intros [= <- _]. apply universal_newlines_has_no_cr.
Qed.

(** X13. The content the read action returns never has a carriage return in
    it, whatever the file holds. *)
Theorem read_never_returns_cr params s content s' :
  FilePlugin.execute "read" params s = (inl (VDict [("content", VStr content)]), s') ->
  contains_cr content = false.
Proof.
  unfold FilePlugin.execute. rewrite try_except_Exception.
  cbn [String.eqb Ascii.eqb Bool.eqb].
  unfold FilePlugin._handle_read. unfold bind at 1 2.
  destruct params; cbn [py_get raise ret]; try discriminate.
  destruct (negb (truthy _)); [cbn; discriminate|].
  destruct (open_read _ s) as [[text | [e | code]] s1] eqn:Hread;
    cbn [ret]; try discriminate.
  intros [= <- _]. exact (open_read_has_no_cr _ s text s1 Hread).
Qed.

Lemma read_never_returns_cr_witness :
  FilePlugin.execute "read" (read_request "notes.txt")
    (initial "" false (mkWorld (<["notes.txt" := String CR (String LF "b")]> ∅) ∅))
  = (inl (VDict [("content", VStr (String LF "b"))]),
     initial "" false (mkWorld (<["notes.txt" := String CR (String LF "b")]> ∅) ∅)) /\
  contains_cr (String LF "b") = false.
Proof.
  split; [reflexivity|].
  apply (read_never_returns_cr (read_request "notes.txt")
           (initial "" false (mkWorld (<["notes.txt" := String CR (String LF "b")]> ∅) ∅))
           (String LF "b")
           (initial "" false (mkWorld (<["notes.txt" := String CR (String LF "b")]> ∅) ∅))).
  reflexivity.
Defined.



(** ** The calculator, further *)

Section Expressions.
Context `{Library}.

Lemma py_all_characters chars s :
  CalculatorPlugin.py_all CalculatorPlugin.in_allowed_chars
    (map (fun c => VStr (String c EmptyString)) chars) s
  = (inl (forallb (fun c => existsb (Ascii.eqb c) CalculatorPlugin.allowed_chars) chars), s).
Proof.
  induction chars as [|c rest IH]; cbn [map CalculatorPlugin.py_all forallb];
    [reflexivity|].
  unfold bind. cbn [CalculatorPlugin.in_allowed_chars ret].
  destruct (existsb (Ascii.eqb c) CalculatorPlugin.allowed_chars); cbn [andb];
    [apply IH | reflexivity].
Qed.


(** X16. An expression string of allowed characters is evaluated, and the
    answer is: the rounded value with the expression echoed, when [eval]
    gives a number and the rounding works; ["Invalid expression: " + str(e)]
    when [eval] or the rounding raises [e]; and ["Invalid expression:
    Expression must result in a number"] when [eval] gives anything else,
    the [ValueError] raised for it being caught by the handler's own
    [except]. The state is left as it was. *)
Theorem calculate_evaluates_allowed_expression entries expression s :
  dict_lookup "expression" entries = Some (VStr expression) ->
  expression <> "" ->
  allowed_expression expression = true ->
  CalculatorPlugin.execute "calculate" (VDict entries) s
  = (inl match py_eval (VStr expression) with
         | Raise e => error_response ("Invalid expression: " ++ exn_str e)
         | Ok (EvalObject _) =>
             error_response "Invalid expression: Expression must result in a number"
         | Ok value =>
             match py_round_float value
                     match dict_lookup "precision" entries with
                     | Some precision => precision
                     | None => VInt 2
                     end with
             | Ok result => VDict [("result", result); ("expression", VStr expression)]
             | Raise e => error_response ("Invalid expression: " ++ exn_str e)
             end
         end, s).
Proof.
  intros Hexpr Hne Hallowed. apply String.eqb_neq in Hne.
  unfold CalculatorPlugin.execute. rewrite try_except_Exception.
  cbn [String.eqb Ascii.eqb Bool.eqb].
  unfold CalculatorPlugin._handle_calculate, py_get.
  unfold bind at 1 2. cbn [ret]. rewrite Hexpr. cbn [truthy]. rewrite Hne. cbn [negb].
  unfold bind at 1. cbn [CalculatorPlugin.py_iter ret].
  unfold bind at 1. rewrite py_all_characters.
  unfold allowed_expression in Hallowed. rewrite Hallowed. cbn [negb].
  unfold bind at 1. rewrite try_except_Exception. unfold bind at 1.
  destruct (py_eval (VStr expression)) as [[n | f | type] | e]; cbn [lift];
    try reflexivity;
    match goal with
    | |- context [py_round_float ?v ?p] => destruct (py_round_float v p)
    end; reflexivity.
Qed.

End Expressions.


Lemma calculate_evaluates_allowed_expression_witness :
  let s := initial "" false empty_world in
  CalculatorPlugin.execute "calculate" (VDict [("expression", VStr "2+2")]) s
  = (inl (VDict [("result", VFloat (FFinite false 4 0)); ("expression", VStr "2+2")]), s).
Proof.
  intro s.
  assert (Hne : "2+2" <> "") by discriminate.
  exact (calculate_evaluates_allowed_expression [("expression", VStr "2+2")] "2+2" s
           eq_refl Hne eq_refl).
Defined.

(** ** The catalogs *)

(** X17. In every plugin the catalog and the executor agree: [execute] has
    a handler for exactly the action names the catalog lists, no name is
    listed twice, and none of them is "metadata" or "actions", the two names
    [main] answers itself. *)
Theorem catalogue_is_the_dispatch_table `{Library} p :
  List.NoDup (action_names (plugin_actions p)) /\
  ~ In "metadata" (action_names (plugin_actions p)) /\
  ~ In "actions" (action_names (plugin_actions p)) /\
  forall action,
    In action (action_names (plugin_actions p)) <->
    exists handler, plugin_handler p action = Some handler.
Proof.
  split; [|split; [|split]].
  - destruct p; cbn;
      repeat (apply List.NoDup_cons; [cbn; intuition discriminate|]);
      apply List.NoDup_nil.
  - destruct p; cbn; intuition discriminate.
  - destruct p; cbn; intuition discriminate.
  - intro action. apply handler_iff_catalogued.
Qed.

(** ** The HTTP handlers and missing files *)

(** X18. With a usable url, the get and the post action answer with the
    status code, the headers and the body of the response, or, when the
    request raises (no connection, a timeout, a malformed url), with
    [{"error": str(e)}]; absent headers are sent as the empty object, an
    absent body as the empty string, an absent timeout as 30. The process
    state is left as it was. *)
Theorem http_request_outcome `{Library} entries url s :
  dict_lookup "url" entries = Some url -> truthy url = true ->
  let headers := match dict_lookup "headers" entries with
                 | Some v => v | None => VDict [] end in
  let timeout := match dict_lookup "timeout" entries with
                 | Some v => v | None => VInt 30 end in
  let body := match dict_lookup "body" entries with
              | Some v => v | None => VStr "" end in
  let answer (r : result http_response) :=
    match r with
    | Ok response => HttpPlugin.response_fields response
    | Raise e => error_response (exn_str e)
    end in
  HttpPlugin.execute "get" (VDict entries) s
  = (inl (answer (requests_get url headers timeout)), s) /\
  HttpPlugin.execute "post" (VDict entries) s
  = (inl (answer (requests_post url body headers timeout)), s).
Proof.
  intros Hurl Htruthy headers timeout body answer.
  subst headers timeout body answer.
  unfold HttpPlugin.execute. rewrite !try_except_Exception.
  cbn [String.eqb Ascii.eqb Bool.eqb].
  unfold HttpPlugin._handle_get, HttpPlugin._handle_post, py_get, bind.
  cbn [ret]. rewrite Hurl, Htruthy. cbn [negb].
  split.
  - destruct (requests_get _ _ _); reflexivity.
  - destruct (requests_post _ _ _ _); reflexivity.
Qed.

Lemma http_request_outcome_witness :
  let s := initial "" false empty_world in
  HttpPlugin.execute "get" (VDict [("url", VStr "http://localhost/")]) s
  = (inl (error_response "Connection refused"), s) /\
  HttpPlugin.execute "post" (VDict [("url", VStr "http://localhost/")]) s
  = (inl (error_response "Connection refused"), s).
Proof.
  intro s.
  exact (http_request_outcome [("url", VStr "http://localhost/")]
           (VStr "http://localhost/") s eq_refl eq_refl).
Defined.

Lemma split_sep_without_sep P : has_sep P = false -> split_sep P = [P].
Proof.
  induction P as [|c rest IH]; [reflexivity|].
  cbn [has_sep split_sep]. intros [Hc Hrest]%orb_false_iff.
  now rewrite Hc, (IH Hrest).
Qed.

Lemma utf8_length_bounds P : (String.length P <= utf8_length P <= 2 * String.length P)%nat.
Proof.
  induction P as [|c rest IH]; cbn [String.length utf8_length]; [lia|].
  destruct (nat_of_ascii c <? 128)%nat; lia.
Qed.

(** A bare file name leads to the entry of that name in the current
    directory. *)
Lemma locate_bare_name w P :
  P <> "" -> P <> "." -> P <> ".." -> has_sep P = false ->
  (utf8_length P <= NAME_MAX)%nat ->
  "." ∉ unsearchable w ->
  locate w P = AtEntry here P /\ key_of (child_of here P) = P.
Proof.
  intros Hne Hdot Hdots Hsep Hlen Hsearch.
  apply String.eqb_neq in Hne, Hdot, Hdots.
  split.
  - unfold locate. rewrite Hne.
    assert (Hpath : (PATH_MAX <=? utf8_length P)%nat = false).
    { apply Nat.leb_gt. unfold NAME_MAX, PATH_MAX in *. lia. }
    rewrite Hpath, (split_sep_without_sep P Hsep).
    assert (Hstart : starts_at P = here).
    { destruct P as [|c rest]; [reflexivity|].
      cbn [has_sep] in Hsep. apply orb_false_iff in Hsep as [Hc _].
      cbn [starts_at]. now rewrite Hc. }
    rewrite Hstart. cbn [walk].
    change (key_of here) with ".".
    rewrite (bool_decide_eq_false_2 _ Hsearch), Hne, Hdot, Hdots.
    cbn [orb]. apply Nat.ltb_ge in Hlen. now rewrite Hlen.
  - unfold key_of, child_of, here. cbn. now rewrite Hne.
Qed.

(** And the world keeps what it names under the name itself. *)
Lemma stored_as_bare_name w P :
  P <> "" -> P <> "." -> P <> ".." -> has_sep P = false ->
  (utf8_length P <= NAME_MAX)%nat ->
  "." ∉ unsearchable w ->
  stored_as w P = P.
Proof.
  intros Hne Hdot Hdots Hsep Hlen Hsearch. unfold stored_as.
  destruct (locate_bare_name w P Hne Hdot Hdots Hsep Hlen Hsearch) as [-> Hkey].
  exact Hkey.
Qed.

(** X19. Reading a bare file name under which the current directory has
    nothing is answered with an error object, the [FileNotFoundError] of
    [open] turned into a response with the name as [repr] shows it, and
    changes nothing. *)
Theorem read_missing_file_error entries P s :
  dict_lookup "path" entries = Some (VStr P) ->
  P <> "" -> P <> "." -> P <> ".." ->
  has_sep P = false -> has_nul P = false -> (utf8_length P <= NAME_MAX)%nat ->
  "." ∉ unsearchable (proc_world s) ->
  occupied (proc_world s) P = false ->
  let message := "[Errno 2] No such file or directory: " ++ py_repr P in
  FilePlugin._handle_read (VDict entries) s
  = (inr (Exc (mkExn FileNotFoundError message)), s) /\
  FilePlugin.execute "read" (VDict entries) s = (inl (error_response message), s).
Proof.
  intros Hpath Hne Hdot Hdots Hsep Hnul Hlen Hsearch Hfree message.
  destruct (locate_bare_name (proc_world s) P Hne Hdot Hdots Hsep Hlen Hsearch)
    as [Hloc Hkey].
  assert (Hraise : FilePlugin._handle_read (VDict entries) s
                   = (inr (Exc (mkExn FileNotFoundError message)), s)).
  { unfold FilePlugin._handle_read, py_get.
    unfold bind at 1. cbn [ret]. rewrite Hpath. cbn [truthy].
    apply String.eqb_neq in Hne. rewrite Hne. cbn [negb].
    unfold bind at 1. unfold open_read. rewrite Hnul.
    unfold bind at 1. cbn [get_world]. rewrite Hloc. cbn zeta. rewrite Hkey.
    unfold occupied in Hfree.
    destruct (entry_at (proc_world s) P); try discriminate. reflexivity. }
  split; [exact Hraise|].
  unfold FilePlugin.execute. rewrite try_except_Exception.
  cbn [String.eqb Ascii.eqb Bool.eqb]. rewrite Hraise. reflexivity.
Qed.

Lemma read_missing_file_error_witness :
  let s := initial "" false empty_world in
  let message := "[Errno 2] No such file or directory: 'notes.txt'" in
  FilePlugin._handle_read (VDict [("path", VStr "notes.txt")]) s
  = (inr (Exc (mkExn FileNotFoundError message)), s) /\
  FilePlugin.execute "read" (VDict [("path", VStr "notes.txt")]) s
  = (inl (error_response message), s).
Proof.
  intro s.
  apply (read_missing_file_error [("path", VStr "notes.txt")] "notes.txt" s);
    first [reflexivity | discriminate | apply not_elem_of_empty | (vm_compute; lia)].
Defined.
